(** * E-mail verification codes: a model of [routes/auth.py] and [utils/email.py]

    The development follows the Flask implementation documented in
    [implementacao_python.py]: the two in-memory code stores, the four
    route handlers that issue and consume codes, and the [EmailService]
    wrapper around the SMTP client.

    Modelling conventions.
    - A Python [dict] keyed by e-mail address is a [gmap string _].
    - [time.time()] is an input of each handler (the reading of the clock
      at the single place where the handler calls it).  Readings are
      integers (seconds); the handlers only add the constant [900] to a
      reading and compare two readings with [>].
    - [random.randint(100000, 999999)] is an input of the issuing handlers
      (the outcome of the draw); the library guarantees the range.
    - A JSON request body is a record of optional strings: [None] is an
      absent (or [null]) field.  Fields holding other JSON values
      (numbers, lists, ...) are outside the model.
    - A string is the sequence of bytes UTF-8 gives a Python [str]; a
      surrogate code point, which a [str] may hold, is written as the
      three bytes the same scheme would give it.
    - Logging and SMTP traffic are recorded in a [world]; what the SMTP
      server answers is an input ([transport]).
    - The e-mail package is outside the program too.  [MIMEText] encodes
      its text and raises when UTF-8 cannot encode it; this is modelled.
      What [msg.as_string()] gives, or raises, for a message is an input
      ([mime_library]).
    - The FastAPI sketch further down the same document (one shared
      dictionary, no expiry) is a different program; it is modelled
      apart, in [Module FastAPI]. *)

From Stdlib Require Import ZArith String Ascii List Lia Bool.
From stdpp Require Import gmap strings.

Local Open Scope string_scope.
Local Open Scope Z_scope.

(** ** Python's [str] on integers *)

Definition digit_char (d : Z) : ascii := ascii_of_nat (48 + Z.to_nat d).

Fixpoint digits (fuel : nat) (n : Z) (acc : string) : string :=
  match fuel with
  | O => acc
  | S fuel' =>
      let acc' := String (digit_char (n mod 10)) acc in
      if n / 10 =? 0 then acc' else digits fuel' (n / 10) acc'
  end.

(** A number [n >= 0] has at most [log2 n + 1] decimal digits. *)
Definition digits_fuel (n : Z) : nat := S (Z.to_nat (Z.log2 n)).

Definition str (n : Z) : string :=
  if n <? 0 then String "-" (digits (digits_fuel (- n)) (- n) "")
  else digits (digits_fuel n) n "".

(** ** [routes/auth.py]: code generation *)

(** [generate_code]: [str(random.randint(100000, 999999))], with [r] the
    outcome of the draw. *)
Definition generate_code (r : Z) : string := str r.

Definition draw_ok (r : Z) : Prop := 100000 <= r <= 999999.

(** The six decimal digits of [n], most significant first. *)
Definition six_digits (n : Z) : string :=
  String (digit_char (n / 100000 mod 10))
    (String (digit_char (n / 10000 mod 10))
       (String (digit_char (n / 1000 mod 10))
          (String (digit_char (n / 100 mod 10))
             (String (digit_char (n / 10 mod 10))
                (String (digit_char (n mod 10)) ""))))).

(** Reading a string of decimal digits back as a number (used to say what
    "numeric string" means; [None] on any other character). *)
Definition is_digit (c : ascii) : bool :=
  (48 <=? nat_of_ascii c)%nat && (nat_of_ascii c <=? 57)%nat.

Fixpoint decimal_value_from (acc : Z) (s : string) : option Z :=
  match s with
  | EmptyString => Some acc
  | String c s' =>
      if is_digit c
      then decimal_value_from (10 * acc + (Z.of_nat (nat_of_ascii c) - 48)) s'
      else None
  end.

Definition decimal_value (s : string) : option Z :=
  match s with
  | EmptyString => None
  | _ => decimal_value_from 0 s
  end.

Fixpoint all_digits (s : string) : bool :=
  match s with
  | EmptyString => true
  | String c s' => is_digit c && all_digits s'
  end.

(** ** [utils/email.py]: effects

    A call of the service runs in a [world] that records what was logged
    and every call made on the SMTP client, in order.  A computation
    either returns a value or raises; both leave a world behind. *)

Record exn := Exception { exn_msg : string }.   (* [str(e)] *)

Inductive level := INFO | WARNING | ERROR.

(** A text part, once [MIMEText(payload, subtype, 'utf-8')] has built it. *)
Record mime_part := MIMEText { payload : string; subtype : string }.

(** [MIMEMultipart('alternative')] with its three headers. *)
Record message := {
  msg_from : string;
  msg_to : string;
  msg_subject : string;
  msg_parts : list mime_part
}.

Inductive smtp_call :=
| SMTP_connect (host : string) (port : Z)     (* [smtplib.SMTP(host, port, timeout=10)] *)
| SMTP_ehlo
| SMTP_sendmail (sender : string) (rcpt : list string) (data : string)
| SMTP_quit.

Record world := { log : list (level * string); wire : list smtp_call }.

Definition quiet : world := {| log := []; wire := [] |}.

(** What the mail server does with a call, given the calls made so far:
    [None] when the call returns, [Some e] when it raises [e]. *)
Definition transport := list smtp_call -> smtp_call -> option exn.

Inductive result (A : Type) :=
| Ok (a : A)
| Raise (e : exn).
Arguments Ok {A} a.
Arguments Raise {A} e.

(** The e-mail package, as far as its answers are inputs: the
    [UnicodeEncodeError] that encoding a text raises when it fails, and
    what [msg.as_string()] does with a message: the text it returns, or
    the exception it raises. *)
Record mime_library := {
  encode_error : string -> exn;
  as_string : message -> result string
}.

Definition M (A : Type) : Type := world -> result A * world.

Definition ret {A} (a : A) : M A := fun w => (Ok a, w).

Definition bind {A B} (m : M A) (k : A -> M B) : M B :=
  fun w => match m w with
           | (Ok a, w') => k a w'
           | (Raise e, w') => (Raise e, w')
           end.

Definition raise {A} (e : exn) : M A := fun w => (Raise e, w).

(** [try: body  except Exception as e: handler(e)] *)
Definition try_except {A} (body : M A) (handler : exn -> M A) : M A :=
  fun w => match body w with
           | (Ok a, w') => (Ok a, w')
           | (Raise e, w') => handler e w'
           end.

Notation "x <- m ;; k" := (bind m (fun x => k))
  (at level 100, m at level 60, right associativity).
Notation "m ;;; k" := (bind m (fun _ => k))
  (at level 100, right associativity).

Definition logger (lvl : level) (line : string) : M unit :=
  fun w => (Ok tt, {| log := log w ++ [(lvl, line)]; wire := wire w |}).

Definition smtp_do (tr : transport) (c : smtp_call) : M unit :=
  fun w =>
    let w' := {| log := log w; wire := wire w ++ [c] |} in
    match tr (wire w) c with
    | None => (Ok tt, w')
    | Some e => (Raise e, w')
    end.

(** ** Texts that UTF-8 cannot encode

    [text.encode('utf-8')] fails exactly when the text holds a surrogate
    (U+D800 to U+DFFF): in the bytes of the model, a byte 237 followed by
    a byte from 160 to 191. *)

Definition surrogate_start (c d : ascii) : bool :=
  (nat_of_ascii c =? 237)%nat &&
  ((160 <=? nat_of_ascii d)%nat && (nat_of_ascii d <=? 191)%nat).

Fixpoint utf8_encodable (s : string) : bool :=
  match s with
  | String c s' =>
      match s' with
      | String d _ => negb (surrogate_start c d) && utf8_encodable s'
      | EmptyString => true
      end
  | EmptyString => true
  end.

(** The one-character string U+D800. *)
Definition lone_surrogate : string :=
  String (ascii_of_nat 237) (String (ascii_of_nat 160) (String (ascii_of_nat 128) "")).

(** No byte 237 at all: enough for a text to be encodable, whatever
    follows it. *)
Fixpoint no_byte_237 (s : string) : bool :=
  match s with
  | EmptyString => true
  | String c s' => negb (nat_of_ascii c =? 237)%nat && no_byte_237 s'
  end.

(** The first byte, if any, is not one that completes a surrogate. *)
Definition starts_clean (s : string) : bool :=
  match s with
  | EmptyString => true
  | String d _ => negb ((160 <=? nat_of_ascii d)%nat && (nat_of_ascii d <=? 191)%nat)
  end.

(** The call [MIMEText(text, subtype, 'utf-8')]: the part, or the
    encoding error. *)
Definition MIMEText_utf8 (lib : mime_library) (text subtype : string)
  : M mime_part :=
  if utf8_encodable text then ret (MIMEText text subtype)
  else raise (encode_error lib text).

(** The call [msg.as_string()]. *)
Definition serialise (lib : mime_library) (msg : message) : M string :=
  fun w => (as_string lib msg, w).

(** ** [utils/email.py]: message bodies

    The two f-strings of each mail, with [q s] for a quoted attribute
    value.  Strings are sequences of UTF-8 bytes. *)

Definition q (s : string) : string :=
  String (ascii_of_nat 34) s +:+ String (ascii_of_nat 34) "".

Definition verification_text (code : string) : string :=
"
        Olá!
        
        Seu código de verificação é: "
  +:+ code +:+
"
        
        Este código expira em 15 minutos.
        
        Se não foi você, ignore este e-mail.
        ".

Definition verification_html (code : string) : string :=
"
        <!DOCTYPE html>
        <html>
        <head>
            <meta charset=" +:+ q "utf-8" +:+ ">
        </head>
        <body style=" +:+ q "font-family: Arial, sans-serif; padding: 20px; background: #f5f5f5;" +:+ ">
            <div style=" +:+ q "max-width: 600px; margin: 0 auto; background: white; padding: 30px; border-radius: 10px;" +:+ ">
                <h2 style=" +:+ q "color: #333; margin-top: 0;" +:+ ">Verificação de Conta</h2>
                <p style=" +:+ q "color: #666; font-size: 16px;" +:+ ">Seu código de verificação é:</p>
                <div style=" +:+ q "background: #f8f9fa; padding: 20px; text-align: center; border-radius: 8px; margin: 20px 0;" +:+ ">
                    <h1 style=" +:+ q "color: #e50914; font-size: 36px; margin: 0; letter-spacing: 4px;" +:+ ">"
  +:+ code +:+
"</h1>
                </div>
                <p style=" +:+ q "color: #999; font-size: 14px;" +:+ ">Este código expira em 15 minutos.</p>
                <p style=" +:+ q "color: #ccc; font-size: 12px;" +:+ ">Se não foi você, ignore este e-mail.</p>
            </div>
        </body>
        </html>
        ".

Definition password_reset_text (code : string) : string :=
"
        Olá!
        
        Você solicitou a recuperação de senha da sua conta.
        
        Seu código de recuperação é: "
  +:+ code +:+
"
        
        Este código expira em 15 minutos.
        
        Se você não solicitou, ignore este e-mail.
        ".

Definition password_reset_html (code : string) : string :=
"
        <!DOCTYPE html>
        <html>
        <head>
            <meta charset=" +:+ q "utf-8" +:+ ">
        </head>
        <body style=" +:+ q "font-family: Arial, sans-serif; padding: 20px; background: #f5f5f5;" +:+ ">
            <div style=" +:+ q "max-width: 600px; margin: 0 auto; background: white; padding: 30px; border-radius: 10px;" +:+ ">
                <h2 style=" +:+ q "color: #333; margin-top: 0;" +:+ ">Recuperação de Senha</h2>
                <p style=" +:+ q "color: #666; font-size: 16px;" +:+ ">Você solicitou a recuperação de senha.</p>
                <p style=" +:+ q "color: #666;" +:+ ">Seu código de recuperação é:</p>
                <div style=" +:+ q "background: #f8f9fa; padding: 20px; text-align: center; border-radius: 8px; margin: 20px 0;" +:+ ">
                    <h1 style=" +:+ q "color: #e50914; font-size: 36px; margin: 0; letter-spacing: 4px;" +:+ ">"
  +:+ code +:+
"</h1>
                </div>
                <p style=" +:+ q "color: #999; font-size: 14px;" +:+ ">Este código expira em 15 minutos.</p>
                <p style=" +:+ q "color: #ccc; font-size: 12px;" +:+ ">Se não foi você, ignore este e-mail. Sua senha permanece segura.</p>
            </div>
        </body>
        </html>
        ".

(** ** [utils/email.py]: [EmailService] *)

Record EmailService := {
  smtp_host : string;
  smtp_port : Z;
  smtp_from : string;
  log_only : bool
}.

(** Python truthiness of an optional string: [None] and [''] are false. *)
Definition present (v : option string) : option string :=
  match v with
  | Some EmptyString => None
  | _ => v
  end.

Section Service.
Variable self : EmailService.
Variable lib : mime_library.
Variable tr : transport.

(** The connection object; [None] in log-only mode. *)
Definition _create_connection : M (option unit) :=
  if log_only self then
    logger INFO "[email] Modo LOG_ONLY - sem envio real" ;;; ret None
  else
    try_except
      (smtp_do tr (SMTP_connect (smtp_host self) (smtp_port self)) ;;;
       smtp_do tr SMTP_ehlo ;;;
       logger INFO ("[email] Conectado ao SMTP " +:+ smtp_host self +:+ ":"
                      +:+ str (smtp_port self)) ;;;
       ret (Some tt))
      (fun e =>
         logger ERROR ("[email] Erro ao conectar SMTP: " +:+ exn_msg e) ;;;
         raise e).

(** The message, built before anything else: the three headers, the text
    part, and the HTML part when one is given. *)
Definition build_message (to subject text : string) (html : option string)
  : M message :=
  plain <- MIMEText_utf8 lib text "plain" ;;
  rich <- match present html with
          | Some h => (part <- MIMEText_utf8 lib h "html" ;; ret [part])
          | None => ret []
          end ;;
  ret {| msg_from := smtp_from self;
         msg_to := to;
         msg_subject := subject;
         msg_parts := plain :: rich |}.

Definition _send_email (to subject text : string) (html : option string)
  : M bool :=
  msg <- build_message to subject text html ;;
  if log_only self then
    logger WARNING ("[email][LOG_ONLY] to=" +:+ to +:+ " subject=" +:+ subject) ;;;
    ret true
  else
    try_except
      (smtp <- _create_connection ;;
       match smtp with
       | Some _ =>
           data <- serialise lib msg ;;
           smtp_do tr (SMTP_sendmail (smtp_from self) [to] data) ;;;
           smtp_do tr SMTP_quit ;;;
           logger INFO ("[email] Enviado para: " +:+ to) ;;;
           ret true
       | None =>
           raise (Exception "'NoneType' object has no attribute 'sendmail'")
       end)
      (fun e =>
         logger ERROR ("[email] Erro ao enviar: " +:+ exn_msg e) ;;;
         raise e).

Definition send_verification_email (to code : string) : M bool :=
  _send_email to "Seu código de verificação"
    (verification_text code) (Some (verification_html code)).

Definition send_password_reset_email (to code : string) : M bool :=
  _send_email to "Recuperação de Senha"
    (password_reset_text code) (Some (password_reset_html code)).

Definition verify_connection : M bool :=
  if log_only self then
    logger INFO "[email] Modo LOG_ONLY ativo" ;;; ret true
  else
    try_except
      (smtp <- _create_connection ;;
       match smtp with
       | Some _ => smtp_do tr SMTP_quit ;;; ret true
       | None => ret true
       end)
      (fun e =>
         logger ERROR ("[email] Falha na verificação: " +:+ exn_msg e) ;;;
         ret false).
End Service.

(** ** [routes/auth.py]: stores, requests, responses *)

(** One stored entry: [{'code': ..., 'expires_at': ...}]. *)
Record pending := { code : string; expires_at : Z }.

(** The two module-level dictionaries. *)
Record state := {
  verification_codes : gmap string pending;
  reset_codes : gmap string pending
}.

Definition initial_state : state :=
  {| verification_codes := ∅; reset_codes := ∅ |}.

(** The fields a handler reads with [data.get(...)]. *)
Record request := {
  email : option string;
  code_field : option string;          (* ['code'] *)
  new_password : option string
}.

Inductive body :=
| ErrorBody (error : string)             (* [{'error': ...}] *)
| SuccessBody (message : string).        (* [{'success': True, 'message': ...}] *)

Record response := { status : Z; json : body }.

Definition bad_request (msg : string) : response :=
  {| status := 400; json := ErrorBody msg |}.
Definition server_error (msg : string) : response :=
  {| status := 500; json := ErrorBody msg |}.
Definition success (msg : string) : response :=
  {| status := 200; json := SuccessBody msg |}.

(** The outcomes of section 7 of the specification, as the responses the
    handlers build for them. *)
Definition CodeNotFound : response := bad_request "Código inválido ou expirado".
Definition CodeExpired : response := bad_request "Código expirado".
Definition CodeMismatch : response := bad_request "Código incorreto".
Definition DeliveryFailure (e : exn) : response :=
  server_error ("Erro ao enviar e-mail: " +:+ exn_msg e).

(** ** [routes/auth.py]: the four handlers

    [now] is the value of the handler's call of [time.time()], [r] the
    outcome of its random draw. *)

(** The dictionary assignment of the issuing handlers:
    [store[email] = {'code': code, 'expires_at': time.time() + 900}]. *)
Definition issue (e c : string) (now : Z) (m : gmap string pending)
  : gmap string pending :=
  <[e := {| code := c; expires_at := now + 900 |}]> m.

Section Routes.
Variable email_service : EmailService.
Variable lib : mime_library.
Variable tr : transport.

Definition register (r now : Z) (data : request) (st : state) (w : world)
  : response * state * world :=
  match present (email data) with
  | None => (bad_request "Email é obrigatório", st, w)
  | Some e =>
      let c := generate_code r in
      let st' := {| verification_codes := issue e c now (verification_codes st);
                    reset_codes := reset_codes st |} in
      match send_verification_email email_service lib tr e c w with
      | (Ok _, w') => (success "Código enviado para seu e-mail", st', w')
      | (Raise x, w') => (DeliveryFailure x, st', w')
      end
  end.

Definition verify_code (now : Z) (data : request) (st : state)
  : response * state :=
  match present (email data), present (code_field data) with
  | Some e, Some c =>
      match verification_codes st !! e with
      | None => (CodeNotFound, st)
      | Some stored =>
          if now >? expires_at stored then
            (CodeExpired,
             {| verification_codes := delete e (verification_codes st);
                reset_codes := reset_codes st |})
          else if negb (String.eqb (code stored) c) then
            (CodeMismatch, st)
          else
            (success "Código verificado com sucesso",
             {| verification_codes := delete e (verification_codes st);
                reset_codes := reset_codes st |})
      end
  | _, _ => (bad_request "Email e código são obrigatórios", st)
  end.

Definition forgot_password (r now : Z) (data : request) (st : state) (w : world)
  : response * state * world :=
  match present (email data) with
  | None => (bad_request "Email é obrigatório", st, w)
  | Some e =>
      let c := generate_code r in
      let st' := {| verification_codes := verification_codes st;
                    reset_codes := issue e c now (reset_codes st) |} in
      match send_password_reset_email email_service lib tr e c w with
      | (Ok _, w') => (success "Código de recuperação enviado", st', w')
      | (Raise x, w') => (DeliveryFailure x, st', w')
      end
  end.

Definition reset_password (now : Z) (data : request) (st : state)
  : response * state :=
  match present (email data), present (code_field data),
        present (new_password data) with
  | Some e, Some c, Some _ =>
      match reset_codes st !! e with
      | None => (CodeNotFound, st)
      | Some stored =>
          if now >? expires_at stored then
            (CodeExpired,
             {| verification_codes := verification_codes st;
                reset_codes := delete e (reset_codes st) |})
          else if negb (String.eqb (code stored) c) then
            (CodeMismatch, st)
          else
            (success "Senha atualizada com sucesso",
             {| verification_codes := verification_codes st;
                reset_codes := delete e (reset_codes st) |})
      end
  | _, _, _ => (bad_request "Todos os campos são obrigatórios", st)
  end.
End Routes.

(** Request bodies as the [curl] examples send them. *)
Definition email_body (e : string) : request :=
  {| email := Some e; code_field := None; new_password := None |}.
Definition code_body (e c : string) : request :=
  {| email := Some e; code_field := Some c; new_password := None |}.
Definition reset_body (e c p : string) : request :=
  {| email := Some e; code_field := Some c; new_password := Some p |}.

(** ** States the server can be in

    One step is one request served by one of the four handlers, with any
    body, any clock reading, any outcome of the draw within its range and
    any behaviour of the mail server and of the e-mail package. *)

Inductive step (st : state) : state -> Prop :=
| step_register svc lib tr r now data w :
    draw_ok r ->
    step st (register svc lib tr r now data st w).1.2
| step_verify_code now data :
    step st (verify_code now data st).2
| step_forgot_password svc lib tr r now data w :
    draw_ok r ->
    step st (forgot_password svc lib tr r now data st w).1.2
| step_reset_password now data :
    step st (reset_password now data st).2.

Inductive reachable : state -> Prop :=
| reachable_init : reachable initial_state
| reachable_step st st' : reachable st -> step st st' -> reachable st'.

(** What every stored entry looks like in a state the server can be in:
    its key is a non-empty address and its code came out of
    [generate_code]. *)
Definition store_ok (m : gmap string pending) : Prop :=
  forall e p, m !! e = Some p ->
    e <> "" /\ exists r, draw_ok r /\ code p = generate_code r.

Definition state_ok (st : state) : Prop :=
  store_ok (verification_codes st) /\ store_ok (reset_codes st).

(** ** Sample configurations and runs *)

(** A stand-in for the e-mail package in the sample runs.  It refuses a
    message with a line break in a header and writes the others out in a
    plain way; only the theorems' hypotheses say what the package does. *)
Fixpoint has_line_break (s : string) : bool :=
  match s with
  | EmptyString => false
  | String c s' =>
      (nat_of_ascii c =? 10)%nat || (nat_of_ascii c =? 13)%nat || has_line_break s'
  end.

Definition sample_library : mime_library :=
  {| encode_error := fun _ =>
       Exception "'utf-8' codec can't encode character: surrogates not allowed";
     as_string := fun msg =>
       if has_line_break (msg_from msg) || has_line_break (msg_to msg)
          || has_line_break (msg_subject msg)
       then Raise (Exception "header value appears to contain an embedded header")
       else Ok ("From: " +:+ msg_from msg +:+ "; To: " +:+ msg_to msg
                  +:+ "; Subject: " +:+ msg_subject msg +:+ "; "
                  +:+ fold_right (fun part rest => payload part +:+ rest) ""
                        (msg_parts msg)) |}.

(** [config/settings.py] defaults, with [EMAIL_LOG_ONLY=1] and without. *)
Definition dev_service : EmailService :=
  {| smtp_host := "127.0.0.1"; smtp_port := 25;
     smtp_from := "no-reply@seusite.com"; log_only := true |}.

Definition prod_service : EmailService :=
  {| smtp_host := "127.0.0.1"; smtp_port := 25;
     smtp_from := "no-reply@seusite.com"; log_only := false |}.

(** A mail server that accepts everything, and one that refuses the
    connection. *)
Definition server_up : transport := fun _ _ => None.

Definition server_down : transport :=
  fun _ c =>
    match c with
    | SMTP_connect _ _ => Some (Exception "[Errno 111] Connection refused")
    | _ => None
    end.

(** [a@x.com] registers at [t = 0]; the draw gives [123456]. *)
Definition after_register : state :=
  (register dev_service sample_library server_up 123456 0 (email_body "a@x.com")
     initial_state quiet).1.2.

(** ... and registers again at [t = 20]; the draw gives [123456] again. *)
Definition after_same_draw : state :=
  (register dev_service sample_library server_up 123456 20 (email_body "a@x.com")
     after_register quiet).1.2.

(** ... or asks for a password reset at [t = 1]; the draw gives [123456]. *)
Definition after_both_flows : state :=
  (forgot_password dev_service sample_library server_up 123456 1 (email_body "a@x.com")
     after_register quiet).1.2.

(** ** [app.py]: the health route *)

(** [{'status': ..., 'email_smtp': ...}] *)
Record health_body := { health_status : string; email_smtp : bool }.

Definition health (svc : EmailService) (tr : transport) : M health_body :=
  b <- verify_connection svc tr ;;
  ret {| health_status := "ok"; email_smtp := b |}.

(** ** Several verification requests served one after the other *)

Fixpoint verify_code_in_turn (attempts : list (Z * request)) (st : state)
  : list response * state :=
  match attempts with
  | [] => ([], st)
  | (now, data) :: rest =>
      let (answer, st1) := verify_code now data st in
      let (answers, st2) := verify_code_in_turn rest st1 in
      (answer :: answers, st2)
  end.

(** A wrong attempt on an unexpired entry: the address, and a non-empty
    candidate that is not the stored code, sent no later than the expiry. *)
Definition wrong_attempt (e : string) (stored : pending) (a : Z * request) : Prop :=
  a.1 <= expires_at stored /\
  email a.2 = Some e /\
  exists c, code_field a.2 = Some c /\ c <> "" /\ c <> code stored.

(** ** The FastAPI variant

    One dictionary [codes] for both flows, mapping the address to the code
    itself; no expiry.  The request models are validated by the framework
    before a handler runs, so a handler receives a string for every field
    of its model. *)

Module FastAPI.

(** A handler returns a JSON body, raises [HTTPException], or lets a
    [KeyError] of the dictionary escape. *)
Inductive outcome :=
| Returned (message : string)            (* [{"success": True, "message": ...}] *)
| HTTPException (status_code : Z) (detail : string)
| KeyError (key : string).

Definition register (svc : EmailService) (lib : mime_library) (tr : transport)
  (r : Z) (req_email : string) (codes : gmap string string) (w : world)
  : outcome * gmap string string * world :=
  let c := str r in
  let codes' := <[req_email := c]> codes in
  match send_verification_email svc lib tr req_email c w with
  | (Ok _, w') => (Returned "Código enviado", codes', w')
  | (Raise x, w') => (HTTPException 500 (exn_msg x), codes', w')
  end.

(** [codes.get(email) != code]: a missing key gives [None], which differs
    from every string. *)
Definition get_differs (codes : gmap string string) (k c : string) : bool :=
  match codes !! k with
  | Some stored => negb (String.eqb stored c)
  | None => true
  end.

(** [del codes[k]] *)
Definition del (k : string) (codes : gmap string string)
  : option (gmap string string) :=
  match codes !! k with
  | Some _ => Some (delete k codes)
  | None => None
  end.

Definition verify (req_email req_code : string) (codes : gmap string string)
  : outcome * gmap string string :=
  if get_differs codes req_email req_code then
    (HTTPException 400 "Código inválido", codes)
  else
    match del req_email codes with
    | Some codes' => (Returned "Verificado", codes')
    | None => (KeyError req_email, codes)
    end.

Definition forgot_password (svc : EmailService) (lib : mime_library)
  (tr : transport) (r : Z) (req_email : string) (codes : gmap string string)
  (w : world) : outcome * gmap string string * world :=
  let c := str r in
  let codes' := <[req_email := c]> codes in
  match send_password_reset_email svc lib tr req_email c w with
  | (Ok _, w') => (Returned "Código enviado", codes', w')
  | (Raise x, w') => (HTTPException 500 (exn_msg x), codes', w')
  end.

End FastAPI.

(** ** Vocabulary for the SMTP conversation of one delivery *)

(** The text of a mail that [MIMEText] refuses, if there is one: the
    plain text, else the HTML text when one is given. *)
Definition refused_text (text : string) (html : option string) : option string :=
  if utf8_encodable text then
    match present html with
    | Some h => if utf8_encodable h then None else Some h
    | None => None
    end
  else Some text.

(** The message [_send_email] builds when no text is refused. *)
Definition mime_message (svc : EmailService) (to subject text : string)
  (html : option string) : message :=
  {| msg_from := smtp_from svc;
     msg_to := to;
     msg_subject := subject;
     msg_parts :=
       MIMEText text "plain" ::
       match present html with
       | Some h => [MIMEText h "html"]
       | None => []
       end |}.

(** The calls of a delivery that goes through, in order; [data] is the
    serialised message. *)
Definition delivery_calls (svc : EmailService) (to data : string)
  : list smtp_call :=
  [SMTP_connect (smtp_host svc) (smtp_port svc);
   SMTP_ehlo;
   SMTP_sendmail (smtp_from svc) [to] data;
   SMTP_quit].

(** The calls of a reachability probe that goes through. *)
Definition probe_calls (svc : EmailService) : list smtp_call :=
  [SMTP_connect (smtp_host svc) (smtp_port svc); SMTP_ehlo; SMTP_quit].

(** A mail server that accepts the connection and refuses the message. *)
Definition server_rejects_mail : transport :=
  fun _ c =>
    match c with
    | SMTP_sendmail _ _ _ => Some (Exception "550 Mailbox unavailable")
    | _ => None
    end.

Example str_0 : str 0 = "0". Proof. reflexivity. Qed.
Example str_m12 : str (-12) = "-12". Proof. reflexivity. Qed.
Example str_100000 : generate_code 100000 = "100000". Proof. reflexivity. Qed.
Example str_999999 : generate_code 999999 = "999999". Proof. reflexivity. Qed.
Example decimal_value_482913 : decimal_value (generate_code 482913) = Some 482913. Proof. reflexivity. Qed.

(** * Properties *)

Ltac Zify.zify_post_hook ::= Z.to_euclidean_division_equations.

(** ** Decimal strings *)

Lemma digits_fuel_draw (n : Z) :
  draw_ok n -> exists k, digits_fuel n = (6 + k)%nat.
Proof.
  intros [Hlo _]. unfold digits_fuel.
  assert (H16 : 16 <= Z.log2 n).
  { change 16 with (Z.log2 100000). apply Z.log2_le_mono. exact Hlo. }
  exists (Z.to_nat (Z.log2 n) - 5)%nat. lia.
Qed.

Lemma digits_six (k : nat) (n : Z) :
  draw_ok n -> digits (6 + k) n "" = six_digits n.
Proof.
  intros [Hlo Hhi]. unfold six_digits. cbn [Nat.add digits].
  repeat rewrite Z.div_div by lia.
  change (10 * 10 * 10 * 10 * 10 * 10) with 1000000.
  change (10 * 10 * 10 * 10 * 10) with 100000.
  change (10 * 10 * 10 * 10) with 10000.
  change (10 * 10 * 10) with 1000.
  change (10 * 10) with 100.
  repeat match goal with
         | |- context [?a =? 0] =>
             destruct (Z.eqb_spec a 0) as [? | ?]; try lia
         end.
  reflexivity.
Qed.

Lemma generate_code_six (r : Z) : draw_ok r -> generate_code r = six_digits r.
Proof.
  intros Hr. unfold generate_code, str.
  destruct (Z.ltb_spec r 0) as [Hneg | _]; [destruct Hr; lia |].
  destruct (digits_fuel_draw r Hr) as [k ->]. apply digits_six. exact Hr.
Qed.

Lemma digit_char_spec (d : Z) :
  0 <= d < 10 ->
  is_digit (digit_char d) = true /\
  Z.of_nat (nat_of_ascii (digit_char d)) - 48 = d /\
  (digit_char d = "0"%char -> d = 0).
Proof.
  intros Hd.
  assert (Hcases : d = 0 \/ d = 1 \/ d = 2 \/ d = 3 \/ d = 4 \/
                   d = 5 \/ d = 6 \/ d = 7 \/ d = 8 \/ d = 9) by lia.
  repeat destruct Hcases as [-> | Hcases]; try subst d;
    (split; [reflexivity | split; [reflexivity | intros E; try reflexivity; discriminate E]]).
Qed.

Lemma decimal_value_from_digit (acc d : Z) (s : string) :
  0 <= d < 10 ->
  decimal_value_from acc (String (digit_char d) s) =
  decimal_value_from (10 * acc + d) s.
Proof.
  intros Hd. destruct (digit_char_spec d Hd) as (Hdig & Hval & _).
  cbn [decimal_value_from]. rewrite Hdig, Hval. reflexivity.
Qed.

Lemma six_digits_value (n : Z) : draw_ok n -> decimal_value (six_digits n) = Some n.
Proof.
  intros [Hlo Hhi]. unfold decimal_value, six_digits.
  repeat rewrite decimal_value_from_digit by lia.
  cbn [decimal_value_from]. f_equal. lia.
Qed.

Lemma six_digits_all_digits (n : Z) : all_digits (six_digits n) = true.
Proof.
  unfold six_digits. cbn [all_digits].
  repeat match goal with
         | |- context [is_digit (digit_char ?d)] =>
             rewrite (proj1 (digit_char_spec d ltac:(lia)))
         end.
  reflexivity.
Qed.

Lemma generate_code_value (r : Z) :
  draw_ok r -> decimal_value (generate_code r) = Some r.
Proof. intros Hr. rewrite generate_code_six by exact Hr. apply six_digits_value, Hr. Qed.

Lemma generate_code_inj (r1 r2 : Z) :
  draw_ok r1 -> draw_ok r2 -> generate_code r1 = generate_code r2 -> r1 = r2.
Proof.
  intros H1 H2 E.
  pose proof (generate_code_value r1 H1) as V1.
  pose proof (generate_code_value r2 H2) as V2.
  rewrite E in V1. congruence.
Qed.

Lemma generate_code_nonempty (r : Z) : draw_ok r -> generate_code r <> "".
Proof. intros Hr. rewrite generate_code_six by exact Hr. discriminate. Qed.

(** ** Truthiness of request fields *)

Lemma present_Some (v : option string) (s : string) :
  present v = Some s <-> v = Some s /\ s <> "".
Proof.
  destruct v as [[| a t] |]; cbn; split.
  all: try (intros [E Hne]; congruence).
  all: try discriminate.
  intros E; injection E as <-. split; [reflexivity | discriminate].
Qed.

Lemma present_nonempty (s : string) : s <> "" -> present (Some s) = Some s.
Proof. intros Hs. apply present_Some. split; [reflexivity | exact Hs]. Qed.

(** ** Texts and UTF-8 *)

Lemma no_byte_237_prepend (p t : string) :
  no_byte_237 p = true -> utf8_encodable (p +:+ t) = utf8_encodable t.
Proof.
  induction p as [| c p IH]; intros Hp; [reflexivity |].
  cbn [no_byte_237] in Hp. apply andb_true_iff in Hp as [Hc Hp].
  specialize (IH Hp). change (String c p +:+ t) with (String c (p +:+ t)).
  cbn [utf8_encodable]. destruct (p +:+ t) as [| d rest] eqn:E.
  - exact IH.
  - rewrite <- IH. unfold surrogate_start.
    apply negb_true_iff in Hc. rewrite Hc. reflexivity.
Qed.

Lemma no_byte_237_encodable (s : string) :
  no_byte_237 s = true -> utf8_encodable s = true.
Proof.
  intros Hs. pose proof (no_byte_237_prepend s "" Hs) as H.
  replace (s +:+ "") with s in H; [exact H |].
  clear. induction s as [| c s IH]; [reflexivity |].
  change (String c s +:+ "") with (String c (s +:+ "")). f_equal. exact IH.
Qed.

Lemma utf8_encodable_append (a b : string) :
  utf8_encodable a = true -> utf8_encodable b = true -> starts_clean b = true ->
  utf8_encodable (a +:+ b) = true.
Proof.
  intros Ha Hb Hclean. induction a as [| c a IH]; [exact Hb |].
  change (String c a +:+ b) with (String c (a +:+ b)).
  destruct a as [| d a'].
  - change ("" +:+ b) with b. cbn [utf8_encodable].
    destruct b as [| d b']; [reflexivity |].
    cbn [starts_clean] in Hclean. unfold surrogate_start.
    apply negb_true_iff in Hclean. rewrite Hclean, andb_false_r. exact Hb.
  - cbn [utf8_encodable] in Ha. apply andb_true_iff in Ha as [Hcd Ha].
    change (String d a' +:+ b) with (String d (a' +:+ b)) in *.
    cbn [utf8_encodable]. rewrite Hcd. apply IH. exact Ha.
Qed.

Lemma digit_char_not_237 (n : Z) :
  negb (nat_of_ascii (digit_char (n mod 10)) =? 237)%nat = true.
Proof.
  pose proof (Z.mod_pos_bound n 10 ltac:(lia)) as Hd.
  destruct (digit_char_spec (n mod 10) Hd) as (_ & Hval & _).
  apply negb_true_iff, Nat.eqb_neq. lia.
Qed.

Lemma digits_no_byte_237 (fuel : nat) (n : Z) (acc : string) :
  no_byte_237 acc = true -> no_byte_237 (digits fuel n acc) = true.
Proof.
  revert n acc. induction fuel as [| fuel IH]; intros n acc Hacc; [exact Hacc |].
  cbn [digits].
  assert (Hacc' : no_byte_237 (String (digit_char (n mod 10)) acc) = true)
    by (cbn [no_byte_237]; rewrite digit_char_not_237; exact Hacc).
  destruct (n / 10 =? 0); [exact Hacc' | apply IH; exact Hacc'].
Qed.

(** A generated code is plain digits, whatever the draw. *)
Lemma generate_code_encodable (r : Z) : utf8_encodable (generate_code r) = true.
Proof.
  apply no_byte_237_encodable. unfold generate_code, str.
  destruct (r <? 0); [cbn [no_byte_237]; apply andb_true_iff; split; [reflexivity |] |];
    apply digits_no_byte_237; reflexivity.
Qed.

Ltac skip_literals :=
  repeat (rewrite no_byte_237_prepend by (vm_compute; reflexivity)).

Ltac template_encodable Hc :=
  skip_literals;
  apply utf8_encodable_append; [exact Hc | vm_compute; reflexivity ..].

Lemma verification_text_encodable c :
  utf8_encodable c = true -> utf8_encodable (verification_text c) = true.
Proof. intros Hc. unfold verification_text. template_encodable Hc. Qed.

Lemma verification_html_encodable c :
  utf8_encodable c = true -> utf8_encodable (verification_html c) = true.
Proof. intros Hc. unfold verification_html. template_encodable Hc. Qed.

Lemma password_reset_text_encodable c :
  utf8_encodable c = true -> utf8_encodable (password_reset_text c) = true.
Proof. intros Hc. unfold password_reset_text. template_encodable Hc. Qed.

Lemma password_reset_html_encodable c :
  utf8_encodable c = true -> utf8_encodable (password_reset_html c) = true.
Proof. intros Hc. unfold password_reset_html. template_encodable Hc. Qed.

(** The templates leave the code as it is: a code that cannot be encoded
    makes a text that cannot. *)
Lemma verification_text_refused c :
  utf8_encodable c = false -> utf8_encodable (verification_text c) = false.
Proof.
  intros Hc. unfold verification_text. skip_literals.
  destruct (utf8_encodable (c +:+ _)) eqn:E; [| reflexivity].
  exfalso. clear -Hc E. revert E. generalize ("
        
        Este código expira em 15 minutos.
        
        Se não foi você, ignore este e-mail.
        "). intros suffix E.
  induction c as [| a c IH]; [discriminate Hc |].
  destruct c as [| d c'].
  - discriminate Hc.
  - change (String a (String d c') +:+ suffix)
      with (String a (String d (c' +:+ suffix))) in E.
    cbn [utf8_encodable] in Hc, E.
    apply andb_true_iff in E as [Ead E].
    rewrite Ead in Hc. cbn [andb] in Hc.
    apply IH; [exact Hc |].
    change (String d c' +:+ suffix) with (String d (c' +:+ suffix)).
    cbn [utf8_encodable]. exact E.
Qed.

(** ** Building the message *)

Lemma build_message_spec self lib to subject text html w :
  build_message self lib to subject text html w =
  match refused_text text html with
  | None => (Ok (mime_message self to subject text html), w)
  | Some t => (Raise (encode_error lib t), w)
  end.
Proof.
  unfold build_message, refused_text, mime_message, MIMEText_utf8, bind, ret, raise.
  destruct (utf8_encodable text); [| reflexivity].
  destruct (present html) as [h |]; [| reflexivity].
  destruct (utf8_encodable h); reflexivity.
Qed.

Lemma refused_text_none text html :
  utf8_encodable text = true ->
  (forall h, present html = Some h -> utf8_encodable h = true) ->
  refused_text text html = None.
Proof.
  intros Ht Hh. unfold refused_text. rewrite Ht.
  destruct (present html) as [h |]; [rewrite (Hh h eq_refl) |]; reflexivity.
Qed.

Lemma verification_mail_not_refused c :
  utf8_encodable c = true ->
  refused_text (verification_text c) (Some (verification_html c)) = None.
Proof.
  intros Hc. apply refused_text_none; [apply verification_text_encodable, Hc |].
  intros h Hh. apply present_Some in Hh as [[= <-] _].
  apply verification_html_encodable, Hc.
Qed.

Lemma password_reset_mail_not_refused c :
  utf8_encodable c = true ->
  refused_text (password_reset_text c) (Some (password_reset_html c)) = None.
Proof.
  intros Hc. apply refused_text_none; [apply password_reset_text_encodable, Hc |].
  intros h Hh. apply present_Some in Hh as [[= <-] _].
  apply password_reset_html_encodable, Hc.
Qed.

(** ** The e-mail service in log-only mode *)

Lemma _send_email_log_only self lib tr to subject text html w :
  log_only self = true ->
  refused_text text html = None ->
  _send_email self lib tr to subject text html w =
  (Ok true,
   {| log := log w ++ [(WARNING, "[email][LOG_ONLY] to=" +:+ to +:+ " subject=" +:+ subject)];
      wire := wire w |}).
Proof.
  intros Hlog Hok. unfold _send_email, bind.
  rewrite build_message_spec, Hok, Hlog. reflexivity.
Qed.

Lemma _send_email_refused self lib tr to subject text html w t :
  refused_text text html = Some t ->
  _send_email self lib tr to subject text html w = (Raise (encode_error lib t), w).
Proof.
  intros Hko. unfold _send_email, bind.
  rewrite build_message_spec, Hko. reflexivity.
Qed.

(** ** What the issuing handlers leave in the stores *)

Lemma register_state svc lib tr r now data st w :
  (register svc lib tr r now data st w).1.2 =
  match present (email data) with
  | None => st
  | Some e => {| verification_codes := issue e (generate_code r) now (verification_codes st);
                 reset_codes := reset_codes st |}
  end.
Proof.
  unfold register. destruct (present (email data)) as [e |]; [| reflexivity].
  destruct (send_verification_email svc lib tr e (generate_code r) w) as [[b | x] w'];
    reflexivity.
Qed.

Lemma forgot_password_state svc lib tr r now data st w :
  (forgot_password svc lib tr r now data st w).1.2 =
  match present (email data) with
  | None => st
  | Some e => {| verification_codes := verification_codes st;
                 reset_codes := issue e (generate_code r) now (reset_codes st) |}
  end.
Proof.
  unfold forgot_password. destruct (present (email data)) as [e |]; [| reflexivity].
  destruct (send_password_reset_email svc lib tr e (generate_code r) w) as [[b | x] w'];
    reflexivity.
Qed.

(** ** The store invariant *)

Lemma store_ok_empty : store_ok ∅.
Proof. intros e p H. rewrite lookup_empty in H. discriminate. Qed.

Lemma store_ok_issue e r now m :
  e <> "" -> draw_ok r -> store_ok m -> store_ok (issue e (generate_code r) now m).
Proof.
  intros He Hr Hm k p. unfold issue. rewrite lookup_insert.
  destruct (decide (e = k)) as [<- | Hne]; cbn.
  - intros [= <-]. split; [exact He |]. exists r. split; [exact Hr | reflexivity].
  - apply Hm.
Qed.

Lemma store_ok_delete e m : store_ok m -> store_ok (delete e m).
Proof.
  intros Hm k p. rewrite lookup_delete.
  destruct (decide (e = k)); cbn; [discriminate | apply Hm].
Qed.

Lemma verify_code_state now data st :
  (verify_code now data st).2 = st \/
  exists e, (verify_code now data st).2 =
            {| verification_codes := delete e (verification_codes st);
               reset_codes := reset_codes st |}.
Proof.
  unfold verify_code.
  destruct (present (email data)) as [e |]; [| left; reflexivity].
  destruct (present (code_field data)) as [c |]; [| left; reflexivity].
  destruct (verification_codes st !! e) as [stored |]; [| left; reflexivity].
  destruct (now >? expires_at stored); [right; exists e; reflexivity |].
  destruct (negb (code stored =? c)%string); [left | right; exists e]; reflexivity.
Qed.

Lemma reset_password_state now data st :
  (reset_password now data st).2 = st \/
  exists e, (reset_password now data st).2 =
            {| verification_codes := verification_codes st;
               reset_codes := delete e (reset_codes st) |}.
Proof.
  unfold reset_password.
  destruct (present (email data)) as [e |]; [| left; reflexivity].
  destruct (present (code_field data)) as [c |]; [| left; reflexivity].
  destruct (present (new_password data)) as [pw |]; [| left; reflexivity].
  destruct (reset_codes st !! e) as [stored |]; [| left; reflexivity].
  destruct (now >? expires_at stored); [right; exists e; reflexivity |].
  destruct (negb (code stored =? c)%string); [left | right; exists e]; reflexivity.
Qed.

Lemma step_ok st st' : state_ok st -> step st st' -> state_ok st'.
Proof.
  intros [Hv Hr] Hstep. destruct Hstep as [svc lib tr r now data w Hd | now data
                                          | svc lib tr r now data w Hd | now data].
  - rewrite register_state.
    destruct (present (email data)) as [e |] eqn:He; [| split; assumption].
    apply present_Some in He as [_ He].
    split; cbn; [apply store_ok_issue; assumption | assumption].
  - destruct (verify_code_state now data st) as [-> | [e ->]]; [split; assumption |].
    split; cbn; [apply store_ok_delete; assumption | assumption].
  - rewrite forgot_password_state.
    destruct (present (email data)) as [e |] eqn:He; [| split; assumption].
    apply present_Some in He as [_ He].
    split; cbn; [assumption | apply store_ok_issue; assumption].
  - destruct (reset_password_state now data st) as [-> | [e ->]]; [split; assumption |].
    split; cbn; [assumption | apply store_ok_delete; assumption].
Qed.

Lemma reachable_ok st : reachable st -> state_ok st.
Proof.
  induction 1 as [| st st' _ IH Hstep].
  - split; apply store_ok_empty.
  - exact (step_ok st st' IH Hstep).
Qed.

(** ** The verification path, once both fields are present *)

Lemma verify_code_present now data st e c :
  email data = Some e -> code_field data = Some c -> e <> "" -> c <> "" ->
  verify_code now data st =
  match verification_codes st !! e with
  | None => (CodeNotFound, st)
  | Some stored =>
      if now >? expires_at stored then
        (CodeExpired,
         {| verification_codes := delete e (verification_codes st);
            reset_codes := reset_codes st |})
      else if negb (code stored =? c)%string then (CodeMismatch, st)
      else (success "Código verificado com sucesso",
            {| verification_codes := delete e (verification_codes st);
               reset_codes := reset_codes st |})
  end.
Proof.
  intros Ee Ec He Hc. unfold verify_code. rewrite Ee, Ec.
  rewrite (present_nonempty e He), (present_nonempty c Hc). reflexivity.
Qed.

Lemma reset_password_present now data st e c pw :
  email data = Some e -> code_field data = Some c -> new_password data = Some pw ->
  e <> "" -> c <> "" -> pw <> "" ->
  reset_password now data st =
  match reset_codes st !! e with
  | None => (CodeNotFound, st)
  | Some stored =>
      if now >? expires_at stored then
        (CodeExpired,
         {| verification_codes := verification_codes st;
            reset_codes := delete e (reset_codes st) |})
      else if negb (code stored =? c)%string then (CodeMismatch, st)
      else (success "Senha atualizada com sucesso",
            {| verification_codes := verification_codes st;
               reset_codes := delete e (reset_codes st) |})
  end.
Proof.
  intros Ee Ec Ep He Hc Hp. unfold reset_password. rewrite Ee, Ec, Ep.
  rewrite (present_nonempty e He), (present_nonempty c Hc), (present_nonempty pw Hp).
  reflexivity.
Qed.

Section VerifyCases.
Variables (now : Z) (data : request) (st : state) (e c : string).
Hypothesis Ee : email data = Some e.
Hypothesis Ec : code_field data = Some c.
Hypothesis He : e <> "".
Hypothesis Hc : c <> "".

Lemma verify_code_not_found :
  verification_codes st !! e = None ->
  verify_code now data st = (CodeNotFound, st).
Proof.
  intros Hlook. rewrite (verify_code_present now data st e c Ee Ec He Hc), Hlook.
  reflexivity.
Qed.

Lemma verify_code_expired stored :
  verification_codes st !! e = Some stored -> now > expires_at stored ->
  verify_code now data st =
  (CodeExpired,
   {| verification_codes := delete e (verification_codes st);
      reset_codes := reset_codes st |}).
Proof.
  intros Hlook Hnow. rewrite (verify_code_present now data st e c Ee Ec He Hc), Hlook.
  destruct (Z.gtb_spec now (expires_at stored)); [reflexivity | lia].
Qed.

Lemma verify_code_mismatch stored :
  verification_codes st !! e = Some stored -> now <= expires_at stored ->
  code stored <> c ->
  verify_code now data st = (CodeMismatch, st).
Proof.
  intros Hlook Hnow Hne. rewrite (verify_code_present now data st e c Ee Ec He Hc), Hlook.
  destruct (Z.gtb_spec now (expires_at stored)); [lia |].
  destruct (String.eqb_spec (code stored) c); [contradiction | reflexivity].
Qed.

Lemma verify_code_accept stored :
  verification_codes st !! e = Some stored -> now <= expires_at stored ->
  code stored = c ->
  verify_code now data st =
  (success "Código verificado com sucesso",
   {| verification_codes := delete e (verification_codes st);
      reset_codes := reset_codes st |}).
Proof.
  intros Hlook Hnow Heq. rewrite (verify_code_present now data st e c Ee Ec He Hc), Hlook.
  destruct (Z.gtb_spec now (expires_at stored)); [lia |].
  destruct (String.eqb_spec (code stored) c); [reflexivity | contradiction].
Qed.
End VerifyCases.

(** When [verify_code] accepts, the registration store holds the
    candidate, unexpired, under the identifier. *)
Lemma verify_code_accepted now e c st :
  status (verify_code now (code_body e c) st).1 = 200 ->
  exists stored, verification_codes st !! e = Some stored /\
                 code stored = c /\ now <= expires_at stored.
Proof.
  unfold verify_code. cbn [email code_field code_body].
  destruct (present (Some e)) as [e' |] eqn:Ee; [| discriminate].
  destruct (present (Some c)) as [c' |] eqn:Ec; [| discriminate].
  apply present_Some in Ee as [[= <-] _]. apply present_Some in Ec as [[= <-] _].
  destruct (verification_codes st !! e) as [stored |]; [| discriminate].
  destruct (Z.gtb_spec now (expires_at stored)); [discriminate |].
  destruct (String.eqb_spec (code stored) c); [| discriminate].
  intros _. exists stored. repeat split; [assumption | lia].
Qed.

Lemma reset_password_accepted now e c pw st :
  status (reset_password now (reset_body e c pw) st).1 = 200 ->
  exists stored, reset_codes st !! e = Some stored /\
                 code stored = c /\ now <= expires_at stored.
Proof.
  unfold reset_password. cbn [email code_field new_password reset_body].
  destruct (present (Some e)) as [e' |] eqn:Ee; [| discriminate].
  destruct (present (Some c)) as [c' |] eqn:Ec; [| discriminate].
  destruct (present (Some pw)) as [pw' |]; [| discriminate].
  apply present_Some in Ee as [[= <-] _]. apply present_Some in Ec as [[= <-] _].
  destruct (reset_codes st !! e) as [stored |]; [| discriminate].
  destruct (Z.gtb_spec now (expires_at stored)); [discriminate |].
  destruct (String.eqb_spec (code stored) c); [| discriminate].
  intros _. exists stored. repeat split; [assumption | lia].
Qed.

Lemma stored_entry_fields st e stored :
  reachable st -> verification_codes st !! e = Some stored ->
  e <> "" /\ code stored <> "".
Proof.
  intros Hreach Hlook. destruct (reachable_ok st Hreach) as [Hv _].
  destruct (Hv e stored Hlook) as (He & r & Hr & ->).
  split; [exact He | apply generate_code_nonempty, Hr].
Qed.

Lemma stored_reset_entry_fields st e stored :
  reachable st -> reset_codes st !! e = Some stored ->
  e <> "" /\ code stored <> "".
Proof.
  intros Hreach Hlook. destruct (reachable_ok st Hreach) as [_ Hr'].
  destruct (Hr' e stored Hlook) as (He & r & Hr & ->).
  split; [exact He | apply generate_code_nonempty, Hr].
Qed.

(** ** Sample runs *)

Lemma draw_123456 : draw_ok 123456.
Proof. unfold draw_ok. lia. Qed.

Lemma reachable_after_register : reachable after_register.
Proof.
  apply (reachable_step initial_state); [apply reachable_init |].
  apply step_register. exact draw_123456.
Qed.

Lemma reachable_after_same_draw : reachable after_same_draw.
Proof.
  apply (reachable_step after_register); [apply reachable_after_register |].
  apply step_register. exact draw_123456.
Qed.

Lemma reachable_after_both_flows : reachable after_both_flows.
Proof.
  apply (reachable_step after_register); [apply reachable_after_register |].
  apply step_forgot_password. exact draw_123456.
Qed.

Lemma after_register_entry :
  verification_codes after_register !! "a@x.com" =
  Some {| code := "123456"; expires_at := 900 |}.
Proof. vm_compute. reflexivity. Qed.

(** The five answers of the verification handler are pairwise different
    responses, so which check fired can be read off the answer. *)
Lemma answers_distinct :
  CodeNotFound <> CodeExpired /\ CodeNotFound <> CodeMismatch /\
  CodeExpired <> CodeMismatch /\
  (forall m, success m <> CodeNotFound) /\
  (forall m, success m <> CodeExpired) /\
  (forall m, success m <> CodeMismatch) /\
  bad_request "Email e código são obrigatórios" <> CodeNotFound /\
  bad_request "Email e código são obrigatórios" <> CodeExpired /\
  bad_request "Email e código são obrigatórios" <> CodeMismatch.
Proof. repeat split; try intros m; discriminate. Qed.

(** ** Order of the checks *)

(** C1, as the claim states it, fails on a candidate the handler treats as
    missing: the store has no entry for [a@x.com], and the answer to the
    empty candidate is the missing-field answer, not [CodeNotFound]. *)
Lemma verify_code_empty_candidate_not_found :
  verification_codes initial_state !! "a@x.com" = None /\
  verify_code 0 (code_body "a@x.com" "") initial_state =
    (bad_request "Email e código são obrigatórios", initial_state) /\
  bad_request "Email e código são obrigatórios" <> CodeNotFound.
Proof. split; [reflexivity | split; [reflexivity | discriminate]]. Qed.

(** C1 (amended): for a non-empty identifier and a non-empty candidate,
    [verify_code] answers [CodeNotFound] when the store has no entry for
    the identifier; otherwise [CodeExpired], deleting the entry, when the
    clock is past the stored expiry; otherwise [CodeMismatch], leaving the
    store alone, when the candidate differs from the stored code;
    otherwise it deletes the entry and answers success. *)
Theorem verify_code_checks_in_order now data st e c :
  email data = Some e -> code_field data = Some c -> e <> "" -> c <> "" ->
  let consumed := {| verification_codes := delete e (verification_codes st);
                     reset_codes := reset_codes st |} in
  (verification_codes st !! e = None ->
   verify_code now data st = (CodeNotFound, st)) /\
  (forall stored, verification_codes st !! e = Some stored ->
     (now > expires_at stored ->
      verify_code now data st = (CodeExpired, consumed)) /\
     (now <= expires_at stored -> code stored <> c ->
      verify_code now data st = (CodeMismatch, st)) /\
     (now <= expires_at stored -> code stored = c ->
      verify_code now data st =
      (success "Código verificado com sucesso", consumed))).
Proof.
  intros Ee Ec He Hc consumed. split.
  - apply (verify_code_not_found now data st e c Ee Ec He Hc).
  - intros stored Hlook. repeat split; intros.
    + apply (verify_code_expired now data st e c Ee Ec He Hc stored); assumption.
    + apply (verify_code_mismatch now data st e c Ee Ec He Hc stored); assumption.
    + apply (verify_code_accept now data st e c Ee Ec He Hc stored); assumption.
Qed.

Lemma verify_code_checks_in_order_witness :
  verify_code 10 (code_body "a@x.com" "654321") after_register =
  (CodeMismatch, after_register).
Proof.
  refine (proj1 (proj2 (proj2
    (verify_code_checks_in_order 10 (code_body "a@x.com" "654321")
       after_register "a@x.com" "654321" eq_refl eq_refl _ _)
    {| code := "123456"; expires_at := 900 |} after_register_entry)) _ _).
  - discriminate.
  - discriminate.
  - cbn. lia.
  - discriminate.
Defined.

(** ** Single use *)

(** C2: in any state the server can be in, verifying an unexpired stored
    code with that code succeeds and deletes the entry, and verifying
    again with the same identifier and code answers [CodeNotFound],
    whenever the second attempt is made. *)
Theorem verify_code_single_use st now e stored :
  reachable st ->
  verification_codes st !! e = Some stored ->
  now <= expires_at stored ->
  let st' := {| verification_codes := delete e (verification_codes st);
                reset_codes := reset_codes st |} in
  verify_code now (code_body e (code stored)) st =
    (success "Código verificado com sucesso", st') /\
  verification_codes st' !! e = None /\
  forall now', verify_code now' (code_body e (code stored)) st' = (CodeNotFound, st').
Proof.
  intros Hreach Hlook Hnow st'.
  destruct (stored_entry_fields st e stored Hreach Hlook) as [He Hc].
  assert (Hgone : verification_codes st' !! e = None) by apply lookup_delete_eq.
  split; [| split; [exact Hgone |]].
  - apply (verify_code_accept now (code_body e (code stored)) st e (code stored) eq_refl eq_refl He Hc stored);
      [exact Hlook | exact Hnow | reflexivity].
  - intros now'.
    apply (verify_code_not_found now' (code_body e (code stored)) st' e (code stored) eq_refl eq_refl He Hc).
    exact Hgone.
Qed.

Lemma verify_code_single_use_witness :
  let st' := {| verification_codes := delete "a@x.com" (verification_codes after_register);
                reset_codes := reset_codes after_register |} in
  verify_code 10 (code_body "a@x.com" "123456") after_register =
    (success "Código verificado com sucesso", st') /\
  verification_codes st' !! "a@x.com" = None /\
  forall now', verify_code now' (code_body "a@x.com" "123456") st' = (CodeNotFound, st').
Proof.
  refine (verify_code_single_use after_register 10 "a@x.com"
            {| code := "123456"; expires_at := 900 |}
            reachable_after_register after_register_entry _).
  cbn. lia.
Defined.

(** ** Expiry *)

(** C3, as the claim states it, fails on the empty candidate: the entry
    of [a@x.com] expired at [t = 900], yet at [t = 901] the answer is the
    missing-field answer and the entry stays in the store. *)
Lemma verify_code_expired_empty_candidate :
  reachable after_register /\
  verification_codes after_register !! "a@x.com" =
    Some {| code := "123456"; expires_at := 900 |} /\
  verify_code 901 (code_body "a@x.com" "") after_register =
    (bad_request "Email e código são obrigatórios", after_register) /\
  bad_request "Email e código são obrigatórios" <> CodeExpired.
Proof.
  split; [exact reachable_after_register |].
  split; [exact after_register_entry | split; [reflexivity | discriminate]].
Qed.

(** C3 (amended): in any state the server can be in, for every identifier
    with a stored entry and every non-empty candidate, when the clock is
    strictly past the stored expiry [verify_code] answers [CodeExpired]
    and deletes the entry, whether or not the candidate is the stored
    code. *)
Theorem verify_code_after_expiry st now e stored c :
  reachable st ->
  verification_codes st !! e = Some stored ->
  c <> "" ->
  now > expires_at stored ->
  let st' := {| verification_codes := delete e (verification_codes st);
                reset_codes := reset_codes st |} in
  verify_code now (code_body e c) st = (CodeExpired, st') /\
  verification_codes st' !! e = None.
Proof.
  intros Hreach Hlook Hc Hnow st'.
  destruct (stored_entry_fields st e stored Hreach Hlook) as [He _].
  split; [| apply lookup_delete_eq].
  apply (verify_code_expired now (code_body e c) st e c eq_refl eq_refl He Hc stored);
    assumption.
Qed.

Lemma verify_code_after_expiry_witness :
  verify_code 901 (code_body "a@x.com" "123456") after_register =
    (CodeExpired,
     {| verification_codes := delete "a@x.com" (verification_codes after_register);
        reset_codes := reset_codes after_register |}).
Proof.
  refine (proj1 (verify_code_after_expiry after_register 901 "a@x.com"
                   {| code := "123456"; expires_at := 900 |} "123456"
                   reachable_after_register after_register_entry _ _)).
  - discriminate.
  - cbn. lia.
Defined.

(** ** Wrong candidates *)

(** C5, as the claim states it, fails on the empty candidate: it differs
    from the stored code [123456], the entry is not expired at [t = 10],
    and the answer is the missing-field answer, not [CodeMismatch]. *)
Lemma verify_code_wrong_empty_candidate :
  reachable after_register /\
  verification_codes after_register !! "a@x.com" =
    Some {| code := "123456"; expires_at := 900 |} /\
  "" <> "123456" /\
  verify_code 10 (code_body "a@x.com" "") after_register =
    (bad_request "Email e código são obrigatórios", after_register) /\
  bad_request "Email e código são obrigatórios" <> CodeMismatch.
Proof.
  split; [exact reachable_after_register |].
  split; [exact after_register_entry |].
  split; [discriminate | split; [reflexivity | discriminate]].
Qed.

(** C5 (amended): in any state the server can be in, for every identifier
    with an unexpired stored code and every non-empty candidate different
    from it, [verify_code] answers [CodeMismatch] and returns the state it
    was given, so that verifying with the stored code at any later time
    up to the expiry still succeeds. *)
Theorem verify_code_wrong_candidate st now e stored c :
  reachable st ->
  verification_codes st !! e = Some stored ->
  now <= expires_at stored ->
  c <> "" ->
  c <> code stored ->
  verify_code now (code_body e c) st = (CodeMismatch, st) /\
  forall now', now' <= expires_at stored ->
    verify_code now' (code_body e (code stored))
      (verify_code now (code_body e c) st).2 =
    (success "Código verificado com sucesso",
     {| verification_codes := delete e (verification_codes st);
        reset_codes := reset_codes st |}).
Proof.
  intros Hreach Hlook Hnow Hc Hne.
  destruct (stored_entry_fields st e stored Hreach Hlook) as [He Hs].
  assert (Hmis : verify_code now (code_body e c) st = (CodeMismatch, st)).
  { apply (verify_code_mismatch now (code_body e c) st e c eq_refl eq_refl He Hc stored);
      [exact Hlook | exact Hnow | congruence]. }
  split; [exact Hmis |].
  intros now' Hnow'. rewrite Hmis. cbn [snd].
  apply (verify_code_accept now' (code_body e (code stored)) st e (code stored)
           eq_refl eq_refl He Hs stored); [exact Hlook | exact Hnow' | reflexivity].
Qed.

Lemma verify_code_wrong_candidate_witness :
  verify_code 10 (code_body "a@x.com" "000000") after_register =
    (CodeMismatch, after_register).
Proof.
  refine (proj1 (verify_code_wrong_candidate after_register 10 "a@x.com"
                   {| code := "123456"; expires_at := 900 |} "000000"
                   reachable_after_register after_register_entry _ _ _)).
  - cbn. lia.
  - discriminate.
  - discriminate.
Defined.

(** ** Issuing twice *)

Lemma register_issues svc lib tr r now e st w :
  e <> "" ->
  (register svc lib tr r now (email_body e) st w).1.2 =
  {| verification_codes := issue e (generate_code r) now (verification_codes st);
     reset_codes := reset_codes st |}.
Proof.
  intros He. rewrite register_state. cbn [email email_body].
  rewrite (present_nonempty e He). reflexivity.
Qed.

Lemma forgot_password_issues svc lib tr r now e st w :
  e <> "" ->
  (forgot_password svc lib tr r now (email_body e) st w).1.2 =
  {| verification_codes := verification_codes st;
     reset_codes := issue e (generate_code r) now (reset_codes st) |}.
Proof.
  intros He. rewrite forgot_password_state. cbn [email email_body].
  rewrite (present_nonempty e He). reflexivity.
Qed.

Lemma issue_lookup e c now m :
  issue e c now m !! e = Some {| code := c; expires_at := now + 900 |}.
Proof. apply lookup_insert_eq. Qed.

Lemma issue_twice e c1 t1 c2 t2 m :
  issue e c2 t2 (issue e c1 t1 m) = issue e c2 t2 m.
Proof. apply insert_insert_eq. Qed.

(** C4, as the claim states it, fails when the two draws coincide: after
    two successive issues for [a@x.com] the code of the first issue is
    accepted, not answered with [CodeMismatch]. *)
Lemma first_code_accepted_on_same_draw :
  reachable after_same_draw /\
  verify_code 25 (code_body "a@x.com" (generate_code 123456)) after_same_draw =
    (success "Código verificado com sucesso",
     {| verification_codes := delete "a@x.com" (verification_codes after_same_draw);
        reset_codes := reset_codes after_same_draw |}) /\
  success "Código verificado com sucesso" <> CodeMismatch.
Proof.
  split; [exact reachable_after_same_draw |].
  split; [vm_compute; reflexivity | discriminate].
Qed.

(** C4 (amended): for every non-empty identifier, issuing a code replaces
    any existing entry for it: after two successive issues the store is
    what the second issue alone would have left; the second code verifies
    successfully up to its expiry and no other candidate is ever accepted;
    the first code, whenever the two draws differ, is answered with
    [CodeMismatch] up to that expiry; and a store never holds two entries
    for one identifier. *)
Theorem register_overwrites svc lib tr r1 r2 t1 t2 e st w1 w2 :
  e <> "" -> draw_ok r1 -> draw_ok r2 ->
  let s1 := (register svc lib tr r1 t1 (email_body e) st w1).1.2 in
  let s2 := (register svc lib tr r2 t2 (email_body e) s1 w2).1.2 in
  verification_codes s2 = issue e (generate_code r2) t2 (verification_codes st) /\
  verification_codes s2 !! e =
    Some {| code := generate_code r2; expires_at := t2 + 900 |} /\
  (forall now, now <= t2 + 900 ->
     verify_code now (code_body e (generate_code r2)) s2 =
     (success "Código verificado com sucesso",
      {| verification_codes := delete e (verification_codes s2);
         reset_codes := reset_codes s2 |})) /\
  (forall now c, status (verify_code now (code_body e c) s2).1 = 200 ->
     c = generate_code r2 /\ now <= t2 + 900) /\
  (forall now, now <= t2 + 900 -> r1 <> r2 ->
     verify_code now (code_body e (generate_code r1)) s2 = (CodeMismatch, s2)) /\
  (forall (s : state) k p p',
     verification_codes s !! k = Some p -> verification_codes s !! k = Some p' ->
     p = p').
Proof.
  intros He H1 H2 s1 s2.
  assert (Es2 : verification_codes s2 =
                issue e (generate_code r2) t2 (verification_codes st)).
  { unfold s2, s1. rewrite !register_issues by exact He. cbn [verification_codes].
    apply issue_twice. }
  assert (Hlook : verification_codes s2 !! e =
                  Some {| code := generate_code r2; expires_at := t2 + 900 |}).
  { rewrite Es2. apply issue_lookup. }
  split; [exact Es2 | split; [exact Hlook |]].
  split; [| split; [| split]].
  - intros now Hnow.
    apply (verify_code_accept now (code_body e (generate_code r2)) s2 e
             (generate_code r2) eq_refl eq_refl He
             (generate_code_nonempty r2 H2) _ Hlook); [exact Hnow | reflexivity].
  - intros now c Hok.
    destruct (verify_code_accepted now e c s2 Hok) as (stored & Hst & Hcode & Hnow).
    rewrite Hlook in Hst. injection Hst as <-. cbn in Hcode, Hnow.
    split; [symmetry; exact Hcode | exact Hnow].
  - intros now Hnow Hne.
    apply (verify_code_mismatch now (code_body e (generate_code r1)) s2 e
             (generate_code r1) eq_refl eq_refl He
             (generate_code_nonempty r1 H1) _ Hlook); [exact Hnow |].
    cbn [code]. intros E. apply Hne. symmetry.
    apply generate_code_inj; assumption.
  - intros s k p p' Hp Hp'. congruence.
Qed.

Lemma register_overwrites_witness :
  let s1 := (register dev_service sample_library server_up 123456 0 (email_body "a@x.com")
               initial_state quiet).1.2 in
  let s2 := (register dev_service sample_library server_up 654321 20 (email_body "a@x.com")
               s1 quiet).1.2 in
  verify_code 25 (code_body "a@x.com" (generate_code 123456)) s2 = (CodeMismatch, s2).
Proof.
  refine (proj1 (proj2 (proj2 (proj2 (proj2
    (register_overwrites dev_service sample_library server_up 123456 654321 0 20 "a@x.com"
       initial_state quiet quiet _ _ _))))) 25 _ _).
  - discriminate.
  - unfold draw_ok. lia.
  - unfold draw_ok. lia.
  - lia.
  - lia.
Defined.

(** ** Generated codes *)

(** C6: whatever the draw gives within its range, the generated code is
    the decimal string of that number: six characters, all digits, the
    first one not a zero, reading back as the number drawn; and the
    issuing handlers store exactly that string together with the clock
    reading plus 900. *)
Theorem generate_code_six_digits r :
  draw_ok r ->
  (String.length (generate_code r) = 6%nat /\
   all_digits (generate_code r) = true /\
   decimal_value (generate_code r) = Some r /\
   exists d s, generate_code r = String d s /\ d <> "0"%char) /\
  (forall svc lib tr now e st w, e <> "" ->
     verification_codes (register svc lib tr r now (email_body e) st w).1.2 !! e =
     Some {| code := generate_code r; expires_at := now + 900 |}) /\
  (forall svc lib tr now e st w, e <> "" ->
     reset_codes (forgot_password svc lib tr r now (email_body e) st w).1.2 !! e =
     Some {| code := generate_code r; expires_at := now + 900 |}).
Proof.
  intros Hr. split; [| split].
  - rewrite (generate_code_six r Hr). split; [reflexivity |].
    split; [apply six_digits_all_digits |].
    split; [apply six_digits_value, Hr |].
    unfold six_digits. eexists _, _. split; [reflexivity |].
    intros E. destruct Hr as [Hlo Hhi].
    assert (Hd : 0 <= r / 100000 mod 10 < 10) by lia.
    pose proof (proj2 (proj2 (digit_char_spec _ Hd)) E). lia.
  - intros svc lib tr now e st w He. rewrite register_issues by exact He.
    apply issue_lookup.
  - intros svc lib tr now e st w He. rewrite forgot_password_issues by exact He.
    apply issue_lookup.
Qed.

Lemma generate_code_six_digits_witness :
  String.length (generate_code 100000) = 6%nat /\
  decimal_value (generate_code 100000) = Some 100000.
Proof.
  assert (H : draw_ok 100000) by (unfold draw_ok; lia).
  split.
  - exact (proj1 (proj1 (generate_code_six_digits 100000 H))).
  - exact (proj1 (proj2 (proj2 (proj1 (generate_code_six_digits 100000 H))))).
Defined.

(** ** Log-only mode *)

(** C7, as the claim states it, fails on a code that UTF-8 cannot encode:
    the message is built before the flag is looked at, so with the flag
    set and the single character U+D800 as code the sender raises the
    encoding error of [MIMEText], logging nothing. *)
Lemma log_only_raises_on_lone_surrogate :
  log_only dev_service = true /\
  send_verification_email dev_service sample_library server_up "a@x.com"
    lone_surrogate quiet =
  (Raise (encode_error sample_library (verification_text lone_surrogate)), quiet).
Proof.
  split; [reflexivity |].
  apply _send_email_refused. unfold refused_text.
  rewrite (verification_text_refused lone_surrogate) by reflexivity. reflexivity.
Qed.

(** C7 (amended): with the log-only flag set, [_send_email] and the two
    senders built on it never raise for any destination address and any
    code that UTF-8 can encode, as every generated code is: they return
    [True], make no call on the SMTP client, whatever the mail server and
    the e-mail package, and record one warning.  (For a code that UTF-8
    cannot encode the verification sender raises the encoding error.) *)
Theorem log_only_never_raises svc :
  log_only svc = true ->
  (forall lib tr to subject text html w,
     refused_text text html = None ->
     exists line,
       _send_email svc lib tr to subject text html w =
       (Ok true, {| log := log w ++ [(WARNING, line)]; wire := wire w |})) /\
  (forall lib tr to c w,
     utf8_encodable c = true ->
     exists line,
       send_verification_email svc lib tr to c w =
       (Ok true, {| log := log w ++ [(WARNING, line)]; wire := wire w |})) /\
  (forall lib tr to c w,
     utf8_encodable c = true ->
     exists line,
       send_password_reset_email svc lib tr to c w =
       (Ok true, {| log := log w ++ [(WARNING, line)]; wire := wire w |})) /\
  (forall r, utf8_encodable (generate_code r) = true) /\
  (forall lib tr to c w,
     utf8_encodable c = false ->
     send_verification_email svc lib tr to c w =
     (Raise (encode_error lib (verification_text c)), w)).
Proof.
  intros Hlog. split; [| split; [| split; [| split]]].
  - intros lib tr to subject text html w Hok. eexists.
    apply _send_email_log_only; assumption.
  - intros lib tr to c w Hc. eexists. unfold send_verification_email.
    apply _send_email_log_only; [exact Hlog | apply verification_mail_not_refused, Hc].
  - intros lib tr to c w Hc. eexists. unfold send_password_reset_email.
    apply _send_email_log_only; [exact Hlog | apply password_reset_mail_not_refused, Hc].
  - exact generate_code_encodable.
  - intros lib tr to c w Hc. unfold send_verification_email.
    apply _send_email_refused. unfold refused_text.
    rewrite (verification_text_refused c Hc). reflexivity.
Qed.

Lemma log_only_never_raises_witness :
  exists line,
    send_verification_email dev_service sample_library server_down "a@x.com" "123456" quiet =
    (Ok true, {| log := log quiet ++ [(WARNING, line)]; wire := wire quiet |}).
Proof.
  refine (proj1 (proj2 (log_only_never_raises dev_service eq_refl))
            sample_library server_down "a@x.com" "123456" quiet _).
  reflexivity.
Defined.

(** ** The two flows *)

Lemma verify_code_reset_codes now data st :
  reset_codes (verify_code now data st).2 = reset_codes st.
Proof. destruct (verify_code_state now data st) as [-> | [e ->]]; reflexivity. Qed.

Lemma reset_password_verification_codes now data st :
  verification_codes (reset_password now data st).2 = verification_codes st.
Proof. destruct (reset_password_state now data st) as [-> | [e ->]]; reflexivity. Qed.

Lemma register_reset_codes svc lib tr r now data st w :
  reset_codes (register svc lib tr r now data st w).1.2 = reset_codes st.
Proof. rewrite register_state. destruct (present (email data)); reflexivity. Qed.

Lemma forgot_password_verification_codes svc lib tr r now data st w :
  verification_codes (forgot_password svc lib tr r now data st w).1.2 =
  verification_codes st.
Proof. rewrite forgot_password_state. destruct (present (email data)); reflexivity. Qed.

(** The answer of [verify_code] depends on the registration store only,
    that of [reset_password] on the reset store only. *)
Lemma verify_code_frame now data st1 st2 :
  verification_codes st1 = verification_codes st2 ->
  (verify_code now data st1).1 = (verify_code now data st2).1.
Proof.
  intros E. unfold verify_code. rewrite E.
  destruct (present (email data)) as [e |]; [| reflexivity].
  destruct (present (code_field data)) as [c |]; [| reflexivity].
  destruct (verification_codes st2 !! e) as [stored |]; [| reflexivity].
  destruct (now >? expires_at stored); [reflexivity |].
  destruct (negb (code stored =? c)%string); reflexivity.
Qed.

Lemma reset_password_frame now data st1 st2 :
  reset_codes st1 = reset_codes st2 ->
  (reset_password now data st1).1 = (reset_password now data st2).1.
Proof.
  intros E. unfold reset_password. rewrite E.
  destruct (present (email data)) as [e |]; [| reflexivity].
  destruct (present (code_field data)) as [c |]; [| reflexivity].
  destruct (present (new_password data)) as [pw |]; [| reflexivity].
  destruct (reset_codes st2 !! e) as [stored |]; [| reflexivity].
  destruct (now >? expires_at stored); [reflexivity |].
  destruct (negb (code stored =? c)%string); reflexivity.
Qed.

(** C8, as the claim states it, fails when the two flows draw the same
    code: [123456] was issued to [a@x.com] via forgot-password at [t = 1]
    and [verify_code] accepts it at [t = 2], the registration store
    holding the same code. *)
Lemma reset_code_accepted_by_verify_code :
  reachable after_both_flows /\
  reset_codes after_both_flows !! "a@x.com" =
    Some {| code := generate_code 123456; expires_at := 901 |} /\
  (verify_code 2 (code_body "a@x.com" (generate_code 123456)) after_both_flows).1 =
    success "Código verificado com sucesso".
Proof.
  split; [exact reachable_after_both_flows |].
  split; vm_compute; reflexivity.
Qed.

(** C8 (amended): the two flows keep disjoint stores: [register] and
    [verify_code] leave the reset store unchanged, [forgot_password] and
    [reset_password] leave the registration store unchanged; so a
    forgot-password request never changes the answer of [verify_code],
    which accepts a code only when the registration store itself holds it,
    unexpired, for the identifier; and the same with the flows swapped. *)
Theorem flows_keep_disjoint_stores :
  (forall svc lib tr r now data st w,
     reset_codes (register svc lib tr r now data st w).1.2 = reset_codes st) /\
  (forall now data st,
     reset_codes (verify_code now data st).2 = reset_codes st) /\
  (forall svc lib tr r now data st w,
     verification_codes (forgot_password svc lib tr r now data st w).1.2 =
     verification_codes st) /\
  (forall now data st,
     verification_codes (reset_password now data st).2 = verification_codes st) /\
  (forall svc lib tr r t issued st w now data,
     (verify_code now data (forgot_password svc lib tr r t issued st w).1.2).1 =
     (verify_code now data st).1) /\
  (forall svc lib tr r t issued st w now data,
     (reset_password now data (register svc lib tr r t issued st w).1.2).1 =
     (reset_password now data st).1) /\
  (forall svc lib tr r t issued st w now e c,
     status (verify_code now (code_body e c)
               (forgot_password svc lib tr r t issued st w).1.2).1 = 200 ->
     exists stored, verification_codes st !! e = Some stored /\
                    code stored = c /\ now <= expires_at stored) /\
  (forall svc lib tr r t issued st w now e c pw,
     status (reset_password now (reset_body e c pw)
               (register svc lib tr r t issued st w).1.2).1 = 200 ->
     exists stored, reset_codes st !! e = Some stored /\
                    code stored = c /\ now <= expires_at stored).
Proof.
  split; [exact register_reset_codes |].
  split; [exact verify_code_reset_codes |].
  split; [exact forgot_password_verification_codes |].
  split; [exact reset_password_verification_codes |].
  assert (Hv : forall svc lib tr r t issued st w now data,
             (verify_code now data (forgot_password svc lib tr r t issued st w).1.2).1 =
             (verify_code now data st).1).
  { intros. apply verify_code_frame, forgot_password_verification_codes. }
  assert (Hr : forall svc lib tr r t issued st w now data,
             (reset_password now data (register svc lib tr r t issued st w).1.2).1 =
             (reset_password now data st).1).
  { intros. apply reset_password_frame, register_reset_codes. }
  split; [exact Hv | split; [exact Hr | split]].
  - intros svc lib tr r t issued st w now e c. rewrite Hv. apply verify_code_accepted.
  - intros svc lib tr r t issued st w now e c pw. rewrite Hr. apply reset_password_accepted.
Qed.

Lemma flows_keep_disjoint_stores_witness :
  (verify_code 2 (code_body "a@x.com" (generate_code 123456))
     (forgot_password dev_service sample_library server_up 123456 1 (email_body "a@x.com")
        initial_state quiet).1.2).1 = CodeNotFound.
Proof.
  rewrite (proj1 (proj2 (proj2 (proj2 (proj2 flows_keep_disjoint_stores))))
             dev_service sample_library server_up 123456 1 (email_body "a@x.com") initial_state
             quiet 2 (code_body "a@x.com" (generate_code 123456))).
  reflexivity.
Defined.

(** ** The expiry comparison *)

Lemma verify_code_expired_only now e c st stored :
  verification_codes st !! e = Some stored ->
  (verify_code now (code_body e c) st).1 = CodeExpired -> now > expires_at stored.
Proof.
  intros Hlook. unfold verify_code. cbn [email code_field code_body].
  destruct (present (Some e)) as [e' |] eqn:Ee; [| discriminate].
  destruct (present (Some c)) as [c' |] eqn:Ec; [| discriminate].
  apply present_Some in Ee as [[= <-] _]. rewrite Hlook.
  destruct (Z.gtb_spec now (expires_at stored)) as [Hgt | Hle]; [intros _; lia |].
  destruct (negb (code stored =? c')%string); discriminate.
Qed.

Lemma reset_password_expired_only now e c pw st stored :
  reset_codes st !! e = Some stored ->
  (reset_password now (reset_body e c pw) st).1 = CodeExpired ->
  now > expires_at stored.
Proof.
  intros Hlook. unfold reset_password. cbn [email code_field new_password reset_body].
  destruct (present (Some e)) as [e' |] eqn:Ee; [| discriminate].
  destruct (present (Some c)) as [c' |] eqn:Ec; [| discriminate].
  destruct (present (Some pw)) as [pw' |]; [| discriminate].
  apply present_Some in Ee as [[= <-] _]. rewrite Hlook.
  destruct (Z.gtb_spec now (expires_at stored)) as [Hgt | Hle]; [intros _; lia |].
  destruct (negb (code stored =? c')%string); discriminate.
Qed.

Section ResetCases.
Variables (now : Z) (e pw : string) (st : state) (stored : pending).
Hypothesis He : e <> "".
Hypothesis Hc : code stored <> "".
Hypothesis Hp : pw <> "".
Hypothesis Hlook : reset_codes st !! e = Some stored.

Lemma reset_password_accept :
  now <= expires_at stored ->
  reset_password now (reset_body e (code stored) pw) st =
  (success "Senha atualizada com sucesso",
   {| verification_codes := verification_codes st;
      reset_codes := delete e (reset_codes st) |}).
Proof.
  intros Hnow.
  rewrite (reset_password_present now (reset_body e (code stored) pw) st e
             (code stored) pw eq_refl eq_refl eq_refl He Hc Hp), Hlook.
  destruct (Z.gtb_spec now (expires_at stored)); [lia |].
  rewrite String.eqb_refl. reflexivity.
Qed.

Lemma reset_password_expired :
  now > expires_at stored ->
  reset_password now (reset_body e (code stored) pw) st =
  (CodeExpired,
   {| verification_codes := verification_codes st;
      reset_codes := delete e (reset_codes st) |}).
Proof.
  intros Hnow.
  rewrite (reset_password_present now (reset_body e (code stored) pw) st e
             (code stored) pw eq_refl eq_refl eq_refl He Hc Hp), Hlook.
  destruct (Z.gtb_spec now (expires_at stored)); [reflexivity | lia].
Qed.
End ResetCases.

(** C9: the expiry comparison is strict.  In any state the server can be
    in, verifying a stored code with that code at the very instant of its
    expiry succeeds, it is answered with [CodeExpired] at any later
    instant, and no candidate is answered with [CodeExpired] unless the
    clock is strictly past the expiry; the same holds for
    [reset_password]; in particular a code issued by [register] at [t] is
    accepted at [t + 900]. *)
Theorem expiry_comparison_is_strict st :
  reachable st ->
  (forall e stored, verification_codes st !! e = Some stored ->
     verify_code (expires_at stored) (code_body e (code stored)) st =
       (success "Código verificado com sucesso",
        {| verification_codes := delete e (verification_codes st);
           reset_codes := reset_codes st |}) /\
     (forall now, now > expires_at stored ->
        (verify_code now (code_body e (code stored)) st).1 = CodeExpired) /\
     (forall now c, (verify_code now (code_body e c) st).1 = CodeExpired ->
        now > expires_at stored)) /\
  (forall e stored, reset_codes st !! e = Some stored ->
     (forall pw, pw <> "" ->
        reset_password (expires_at stored) (reset_body e (code stored) pw) st =
          (success "Senha atualizada com sucesso",
           {| verification_codes := verification_codes st;
              reset_codes := delete e (reset_codes st) |}) /\
        (forall now, now > expires_at stored ->
           (reset_password now (reset_body e (code stored) pw) st).1 = CodeExpired)) /\
     (forall now c pw,
        (reset_password now (reset_body e c pw) st).1 = CodeExpired ->
        now > expires_at stored)) /\
  (forall svc lib tr r t e w, draw_ok r -> e <> "" ->
     let st' := (register svc lib tr r t (email_body e) st w).1.2 in
     verify_code (t + 900) (code_body e (generate_code r)) st' =
       (success "Código verificado com sucesso",
        {| verification_codes := delete e (verification_codes st');
           reset_codes := reset_codes st' |})).
Proof.
  intros Hreach. split; [| split].
  - intros e stored Hlook.
    destruct (stored_entry_fields st e stored Hreach Hlook) as [He Hc].
    split; [| split].
    + apply (verify_code_accept (expires_at stored) (code_body e (code stored)) st e
               (code stored) eq_refl eq_refl He Hc stored);
        [exact Hlook | lia | reflexivity].
    + intros now Hnow.
      rewrite (verify_code_expired now (code_body e (code stored)) st e
                 (code stored) eq_refl eq_refl He Hc stored Hlook Hnow).
      reflexivity.
    + intros now c. apply verify_code_expired_only. exact Hlook.
  - intros e stored Hlook.
    destruct (stored_reset_entry_fields st e stored Hreach Hlook) as [He Hc].
    split.
    + intros pw Hp. split.
      * apply reset_password_accept; try assumption. lia.
      * intros now Hnow. rewrite reset_password_expired by assumption. reflexivity.
    + intros now c pw. apply reset_password_expired_only. exact Hlook.
  - intros svc lib tr r t e w Hr He st'.
    assert (Hlook : verification_codes st' !! e =
                    Some {| code := generate_code r; expires_at := t + 900 |}).
    { unfold st'. rewrite register_issues by exact He. apply issue_lookup. }
    apply (verify_code_accept (t + 900) (code_body e (generate_code r)) st' e
             (generate_code r) eq_refl eq_refl He (generate_code_nonempty r Hr)
             _ Hlook); [cbn; lia | reflexivity].
Qed.

Lemma expiry_comparison_is_strict_witness :
  verify_code 900 (code_body "a@x.com" "123456") after_register =
    (success "Código verificado com sucesso",
     {| verification_codes := delete "a@x.com" (verification_codes after_register);
        reset_codes := reset_codes after_register |}).
Proof.
  exact (proj1 (proj1 (expiry_comparison_is_strict after_register
                         reachable_after_register)
                 "a@x.com" {| code := "123456"; expires_at := 900 |}
                 after_register_entry)).
Defined.

(** ** Delivery failures *)

(** A refused connection makes the sender raise, after one call on the
    SMTP client. *)
Lemma send_verification_email_connect_refused svc lib tr to c w x :
  log_only svc = false ->
  utf8_encodable c = true ->
  tr (wire w) (SMTP_connect (smtp_host svc) (smtp_port svc)) = Some x ->
  exists w', send_verification_email svc lib tr to c w = (Raise x, w') /\
             wire w' = (wire w ++ [SMTP_connect (smtp_host svc) (smtp_port svc)])%list.
Proof.
  intros Hlog Hc Htr.
  unfold send_verification_email, _send_email, bind.
  rewrite build_message_spec, (verification_mail_not_refused c Hc), Hlog.
  unfold try_except, _create_connection, bind, smtp_do. rewrite Hlog.
  unfold try_except, bind, smtp_do. rewrite Htr.
  cbn. eexists. split; reflexivity.
Qed.

(** C10: [register] writes the new entry before it tries to send.  When
    the sender raises, the answer is the 500 delivery failure and the
    state returned already holds the new code under the identifier,
    whatever was stored there before; that code verifies successfully at
    any time up to its expiry. *)
Theorem register_stores_before_sending svc lib tr r now e st w x w' :
  e <> "" -> draw_ok r ->
  send_verification_email svc lib tr e (generate_code r) w = (Raise x, w') ->
  let st' := {| verification_codes :=
                  issue e (generate_code r) now (verification_codes st);
                reset_codes := reset_codes st |} in
  register svc lib tr r now (email_body e) st w = (DeliveryFailure x, st', w') /\
  status (DeliveryFailure x) = 500 /\
  verification_codes st' !! e =
    Some {| code := generate_code r; expires_at := now + 900 |} /\
  forall now', now' <= now + 900 ->
    verify_code now' (code_body e (generate_code r)) st' =
    (success "Código verificado com sucesso",
     {| verification_codes := delete e (verification_codes st');
        reset_codes := reset_codes st' |}).
Proof.
  intros He Hr Hsend st'.
  assert (Hlook : verification_codes st' !! e =
                  Some {| code := generate_code r; expires_at := now + 900 |})
    by apply issue_lookup.
  split; [| split; [reflexivity | split; [exact Hlook |]]].
  - unfold register. cbn [email email_body]. rewrite (present_nonempty e He).
    cbv zeta. rewrite Hsend. reflexivity.
  - intros now' Hnow'.
    apply (verify_code_accept now' (code_body e (generate_code r)) st' e
             (generate_code r) eq_refl eq_refl He (generate_code_nonempty r Hr) _ Hlook);
      [exact Hnow' | reflexivity].
Qed.

Lemma register_stores_before_sending_witness :
  exists x w',
    send_verification_email prod_service sample_library server_down "a@x.com"
      (generate_code 123456) quiet = (Raise x, w') /\
    status (register prod_service sample_library server_down 123456 0 (email_body "a@x.com")
              after_register quiet).1.1 = 500 /\
    verification_codes
      (register prod_service sample_library server_down 123456 0 (email_body "a@x.com")
         after_register quiet).1.2 !! "a@x.com" =
    Some {| code := generate_code 123456; expires_at := 0 + 900 |}.
Proof.
  destruct (send_verification_email_connect_refused prod_service sample_library server_down
              "a@x.com" (generate_code 123456) quiet
              (Exception "[Errno 111] Connection refused") eq_refl
              (generate_code_encodable 123456) eq_refl)
    as [w' [Hsend _]].
  exists (Exception "[Errno 111] Connection refused"), w'.
  split; [exact Hsend |].
  destruct (register_stores_before_sending prod_service sample_library server_down 123456 0
              "a@x.com" after_register quiet _ w'
              ltac:(discriminate) draw_123456 Hsend) as (Hreg & Hst & Hlook & _).
  rewrite Hreg. split; [exact Hst | exact Hlook].
Defined.

(** * Further properties of the code *)

Local Open Scope list_scope.

(** ** [_send_email], call by call *)

Section SendCases.
Variables (svc : EmailService) (lib : mime_library) (tr : transport).
Variables (to subject text : string) (html : option string) (w : world).
Hypothesis Hlog : log_only svc = false.
Hypothesis Hbuilt : refused_text text html = None.

Let connect := SMTP_connect (smtp_host svc) (smtp_port svc).
Let msg := mime_message svc to subject text html.
Let connected :=
  (INFO, "[email] Conectado ao SMTP " +:+ smtp_host svc +:+ ":"
           +:+ str (smtp_port svc)).

Ltac run_send :=
  unfold _send_email, bind; rewrite build_message_spec, Hbuilt, Hlog;
  unfold _create_connection; rewrite Hlog;
  unfold try_except, bind, smtp_do, serialise, logger, ret, raise; cbn [log wire];
  fold msg; fold connect.

Ltac answer H :=
  rewrite <- ?app_assoc; cbn [app]; rewrite H; cbn [log wire].

Lemma send_connect_refused x :
  tr (wire w) connect = Some x ->
  _send_email svc lib tr to subject text html w =
  (Raise x,
   {| log := log w ++ [(ERROR, "[email] Erro ao conectar SMTP: " +:+ exn_msg x);
                       (ERROR, "[email] Erro ao enviar: " +:+ exn_msg x)];
      wire := wire w ++ [connect] |}).
Proof.
  intros H1. run_send. answer H1. rewrite <- ?app_assoc. reflexivity.
Qed.

Lemma send_ehlo_refused x :
  tr (wire w) connect = None ->
  tr (wire w ++ [connect]) SMTP_ehlo = Some x ->
  _send_email svc lib tr to subject text html w =
  (Raise x,
   {| log := log w ++ [(ERROR, "[email] Erro ao conectar SMTP: " +:+ exn_msg x);
                       (ERROR, "[email] Erro ao enviar: " +:+ exn_msg x)];
      wire := wire w ++ [connect; SMTP_ehlo] |}).
Proof.
  intros H1 H2. run_send. answer H1. answer H2. rewrite <- ?app_assoc. reflexivity.
Qed.

Lemma send_serialise_refused x :
  tr (wire w) connect = None ->
  tr (wire w ++ [connect]) SMTP_ehlo = None ->
  as_string lib msg = Raise x ->
  _send_email svc lib tr to subject text html w =
  (Raise x,
   {| log := log w ++ [connected;
                       (ERROR, "[email] Erro ao enviar: " +:+ exn_msg x)];
      wire := wire w ++ [connect; SMTP_ehlo] |}).
Proof.
  intros H1 H2 H3. run_send. answer H1. answer H2. answer H3.
  rewrite <- ?app_assoc. reflexivity.
Qed.

Lemma send_sendmail_refused data x :
  tr (wire w) connect = None ->
  tr (wire w ++ [connect]) SMTP_ehlo = None ->
  as_string lib msg = Ok data ->
  tr (wire w ++ [connect; SMTP_ehlo]) (SMTP_sendmail (smtp_from svc) [to] data) = Some x ->
  _send_email svc lib tr to subject text html w =
  (Raise x,
   {| log := log w ++ [connected;
                       (ERROR, "[email] Erro ao enviar: " +:+ exn_msg x)];
      wire := wire w ++ [connect; SMTP_ehlo;
                         SMTP_sendmail (smtp_from svc) [to] data] |}).
Proof.
  intros H1 H2 H3 H4. run_send. answer H1. answer H2. answer H3. answer H4.
  rewrite <- ?app_assoc. reflexivity.
Qed.

Lemma send_quit_refused data x :
  tr (wire w) connect = None ->
  tr (wire w ++ [connect]) SMTP_ehlo = None ->
  as_string lib msg = Ok data ->
  tr (wire w ++ [connect; SMTP_ehlo]) (SMTP_sendmail (smtp_from svc) [to] data) = None ->
  tr (wire w ++ [connect; SMTP_ehlo; SMTP_sendmail (smtp_from svc) [to] data])
    SMTP_quit = Some x ->
  _send_email svc lib tr to subject text html w =
  (Raise x,
   {| log := log w ++ [connected;
                       (ERROR, "[email] Erro ao enviar: " +:+ exn_msg x)];
      wire := wire w ++ delivery_calls svc to data |}).
Proof.
  intros H1 H2 H3 H4 H5. run_send. answer H1. answer H2. answer H3. answer H4.
  answer H5. rewrite <- ?app_assoc. reflexivity.
Qed.

Lemma send_accepted data :
  tr (wire w) connect = None ->
  tr (wire w ++ [connect]) SMTP_ehlo = None ->
  as_string lib msg = Ok data ->
  tr (wire w ++ [connect; SMTP_ehlo]) (SMTP_sendmail (smtp_from svc) [to] data) = None ->
  tr (wire w ++ [connect; SMTP_ehlo; SMTP_sendmail (smtp_from svc) [to] data])
    SMTP_quit = None ->
  _send_email svc lib tr to subject text html w =
  (Ok true,
   {| log := log w ++ [connected; (INFO, "[email] Enviado para: " +:+ to)];
      wire := wire w ++ delivery_calls svc to data |}).
Proof.
  intros H1 H2 H3 H4 H5. run_send. answer H1. answer H2. answer H3. answer H4.
  answer H5. rewrite <- ?app_assoc. reflexivity.
Qed.

(** ** [verify_connection], call by call *)

Ltac run_probe :=
  unfold verify_connection, _create_connection; rewrite Hlog;
  unfold try_except, bind, smtp_do, logger, ret, raise; cbn [log wire];
  fold connect.

Lemma probe_connect_refused x :
  tr (wire w) connect = Some x ->
  verify_connection svc tr w =
  (Ok false,
   {| log := log w ++ [(ERROR, "[email] Erro ao conectar SMTP: " +:+ exn_msg x);
                       (ERROR, "[email] Falha na verificação: " +:+ exn_msg x)];
      wire := wire w ++ [connect] |}).
Proof.
  intros H1. run_probe. answer H1. rewrite <- ?app_assoc. reflexivity.
Qed.

Lemma probe_ehlo_refused x :
  tr (wire w) connect = None ->
  tr (wire w ++ [connect]) SMTP_ehlo = Some x ->
  verify_connection svc tr w =
  (Ok false,
   {| log := log w ++ [(ERROR, "[email] Erro ao conectar SMTP: " +:+ exn_msg x);
                       (ERROR, "[email] Falha na verificação: " +:+ exn_msg x)];
      wire := wire w ++ [connect; SMTP_ehlo] |}).
Proof.
  intros H1 H2. run_probe. answer H1. answer H2. rewrite <- ?app_assoc. reflexivity.
Qed.

Lemma probe_quit_refused x :
  tr (wire w) connect = None ->
  tr (wire w ++ [connect]) SMTP_ehlo = None ->
  tr (wire w ++ [connect; SMTP_ehlo]) SMTP_quit = Some x ->
  verify_connection svc tr w =
  (Ok false,
   {| log := log w ++ [connected;
                       (ERROR, "[email] Falha na verificação: " +:+ exn_msg x)];
      wire := wire w ++ [connect; SMTP_ehlo; SMTP_quit] |}).
Proof.
  intros H1 H2 H3. run_probe. answer H1. answer H2. answer H3.
  rewrite <- ?app_assoc. reflexivity.
Qed.

Lemma probe_accepted :
  tr (wire w) connect = None ->
  tr (wire w ++ [connect]) SMTP_ehlo = None ->
  tr (wire w ++ [connect; SMTP_ehlo]) SMTP_quit = None ->
  verify_connection svc tr w =
  (Ok true,
   {| log := log w ++ [connected];
      wire := wire w ++ [connect; SMTP_ehlo; SMTP_quit] |}).
Proof.
  intros H1 H2 H3. run_probe. answer H1. answer H2. answer H3.
  rewrite <- ?app_assoc. reflexivity.
Qed.
End SendCases.

Lemma last_two {A} (l : list A) (a b : A) : last (l ++ [a; b]) = Some b.
Proof. change (l ++ [a; b]) with (l ++ [a] ++ [b]). rewrite app_assoc. apply last_snoc. Qed.

Lemma not_quit_in (calls : list smtp_call) :
  Forall (fun call => call <> SMTP_quit) calls -> SMTP_quit ∉ calls.
Proof.
  intros Hall Hin. rewrite Forall_forall in Hall. exact (Hall _ Hin eq_refl).
Qed.

(** ** The e-mail service outside log-only mode *)



(** X2: whatever the mode, the mail server and the e-mail package,
    [_send_email] either returns [True] or raises one of three things:
    the encoding error of [MIMEText], before any call and with nothing
    logged; the exception [msg.as_string()] raised, after connect and
    EHLO; or the exception the SMTP client raised on the last call made.
    The last two are logged as errors.  It never returns [False].  The
    calls it makes are an initial part of connect, EHLO, [sendmail] of
    the serialised message, QUIT, each made at most once, and none at all
    in log-only mode. *)
Theorem send_email_outcomes svc lib tr to subject text html w :
  exists res w' calls,
    _send_email svc lib tr to subject text html w = (res, w') /\
    wire w' = wire w ++ calls /\
    (log_only svc = true -> calls = []) /\
    (calls `prefix_of` [SMTP_connect (smtp_host svc) (smtp_port svc); SMTP_ehlo] \/
     exists data,
       as_string lib (mime_message svc to subject text html) = Ok data /\
       calls `prefix_of` delivery_calls svc to data) /\
    (res = Ok true \/
     (exists t, refused_text text html = Some t /\
                res = Raise (encode_error lib t) /\ w' = w) \/
     (exists x, as_string lib (mime_message svc to subject text html) = Raise x /\
                res = Raise x /\
                calls = [SMTP_connect (smtp_host svc) (smtp_port svc); SMTP_ehlo] /\
                last (log w') = Some (ERROR, "[email] Erro ao enviar: " +:+ exn_msg x)) \/
     (exists x call,
        res = Raise x /\ last calls = Some call /\
        tr (wire w ++ removelast calls) call = Some x /\
        last (log w') = Some (ERROR, "[email] Erro ao enviar: " +:+ exn_msg x))).
Proof.
  set (connect := SMTP_connect (smtp_host svc) (smtp_port svc)).
  destruct (refused_text text html) as [t |] eqn:Hbuilt.
  { exists (Raise (encode_error lib t)), w, [].
    split; [apply _send_email_refused; exact Hbuilt |].
    split; [symmetry; apply app_nil_r |]. split; [reflexivity |].
    split; [left; apply prefix_nil |].
    right; left. exists t. repeat split. }
  destruct (log_only svc) eqn:Hlog.
  { exists (Ok true), {| log := log w ++ [(WARNING, "[email][LOG_ONLY] to=" +:+ to
                                              +:+ " subject=" +:+ subject)];
                        wire := wire w |}, [].
    split; [apply _send_email_log_only; assumption |].
    split; [cbn; symmetry; apply app_nil_r |]. split; [reflexivity |].
    split; [left; apply prefix_nil | left; reflexivity]. }
  destruct (tr (wire w) connect) as [x |] eqn:H1.
  { eexists _, _, [connect].
    split; [apply (send_connect_refused svc lib tr to subject text html w Hlog Hbuilt x H1) |].
    split; [reflexivity |]. split; [discriminate |].
    split; [left; eexists; reflexivity |].
    right; right; right. exists x, connect.
    split; [reflexivity |]. split; [reflexivity |].
    split; [cbn [removelast]; rewrite app_nil_r; exact H1 | apply last_two]. }
  destruct (tr (wire w ++ [connect]) SMTP_ehlo) as [x |] eqn:H2.
  { eexists _, _, [connect; SMTP_ehlo].
    split; [apply (send_ehlo_refused svc lib tr to subject text html w Hlog Hbuilt x H1 H2) |].
    split; [reflexivity |]. split; [discriminate |].
    split; [left; eexists; symmetry; apply app_nil_r |].
    right; right; right. exists x, SMTP_ehlo.
    split; [reflexivity |]. split; [reflexivity |].
    split; [exact H2 | apply last_two]. }
  destruct (as_string lib (mime_message svc to subject text html)) as [data | x] eqn:H3.
  2:{ eexists _, _, [connect; SMTP_ehlo].
      split; [apply (send_serialise_refused svc lib tr to subject text html w Hlog Hbuilt
                       x H1 H2 H3) |].
      split; [reflexivity |]. split; [discriminate |].
      split; [left; eexists; symmetry; apply app_nil_r |].
      right; right; left. exists x. repeat split. apply last_two. }
  set (sendmail := SMTP_sendmail (smtp_from svc) [to] data).
  destruct (tr (wire w ++ [connect; SMTP_ehlo]) sendmail) as [x |] eqn:H4.
  { eexists _, _, [connect; SMTP_ehlo; sendmail].
    split; [apply (send_sendmail_refused svc lib tr to subject text html w Hlog Hbuilt
                     data x H1 H2 H3 H4) |].
    split; [reflexivity |]. split; [discriminate |].
    split; [right; exists data; split; [reflexivity | eexists; reflexivity] |].
    right; right; right. exists x, sendmail.
    split; [reflexivity |]. split; [reflexivity |].
    split; [exact H4 | apply last_two]. }
  destruct (tr (wire w ++ [connect; SMTP_ehlo; sendmail]) SMTP_quit) as [x |] eqn:H5.
  { eexists _, _, (delivery_calls svc to data).
    split; [apply (send_quit_refused svc lib tr to subject text html w Hlog Hbuilt
                     data x H1 H2 H3 H4 H5) |].
    split; [reflexivity |]. split; [discriminate |].
    split; [right; exists data; split; [reflexivity | reflexivity] |].
    right; right; right. exists x, SMTP_quit.
    split; [reflexivity |]. split; [reflexivity |].
    split; [exact H5 | apply last_two]. }
  eexists _, _, (delivery_calls svc to data).
  split; [apply (send_accepted svc lib tr to subject text html w Hlog Hbuilt
                   data H1 H2 H3 H4 H5) |].
  split; [reflexivity |]. split; [discriminate |].
  split; [right; exists data; split; [reflexivity | reflexivity] |].
  left; reflexivity.
Qed.

Lemma send_email_outcomes_witness :
  exists res w' (calls : list smtp_call),
    _send_email dev_service sample_library server_down "a@x.com" "s" "t" None quiet =
      (res, w') /\
    wire w' = wire quiet ++ calls /\ calls = [].
Proof.
  destruct (send_email_outcomes dev_service sample_library server_down
              "a@x.com" "s" "t" None quiet)
    as (res & w' & calls & Hrun & Hwire & Hlo & _).
  exists res, w', calls. split; [exact Hrun | split; [exact Hwire | exact (Hlo eq_refl)]].
Defined.

(** X3: once connected, a failure ends the delivery without a QUIT.
    Outside log-only mode, with texts that can be encoded and a server
    that accepts the connection and the greeting: when [msg.as_string()]
    raises, [_send_email] raises the same exception after connect and
    EHLO, with no [sendmail] and no QUIT; when the message serialises and
    the server refuses it, [_send_email] raises the server's exception
    right after the [sendmail] call, and no QUIT follows. *)
Theorem failure_after_connecting_skips_quit svc lib tr to subject text html w x :
  log_only svc = false ->
  refused_text text html = None ->
  (forall history, tr history (SMTP_connect (smtp_host svc) (smtp_port svc)) = None) ->
  (forall history, tr history SMTP_ehlo = None) ->
  (as_string lib (mime_message svc to subject text html) = Raise x ->
   exists w',
     _send_email svc lib tr to subject text html w = (Raise x, w') /\
     wire w' = wire w ++ [SMTP_connect (smtp_host svc) (smtp_port svc); SMTP_ehlo] /\
     SMTP_quit ∉ drop (length (wire w)) (wire w')) /\
  (forall data,
     as_string lib (mime_message svc to subject text html) = Ok data ->
     (forall history, tr history (SMTP_sendmail (smtp_from svc) [to] data) = Some x) ->
     exists w',
       _send_email svc lib tr to subject text html w = (Raise x, w') /\
       wire w' = wire w ++ [SMTP_connect (smtp_host svc) (smtp_port svc); SMTP_ehlo;
                            SMTP_sendmail (smtp_from svc) [to] data] /\
       SMTP_quit ∉ drop (length (wire w)) (wire w')).
Proof.
  intros Hlog Hbuilt Hc He. split.
  - intros Hser. eexists. split; [| split].
    + apply (send_serialise_refused svc lib tr to subject text html w Hlog Hbuilt x);
        [apply Hc | apply He | exact Hser].
    + reflexivity.
    + cbn [wire]. rewrite drop_app_length. apply not_quit_in.
      repeat constructor; discriminate.
  - intros data Hser Hs. eexists. split; [| split].
    + apply (send_sendmail_refused svc lib tr to subject text html w Hlog Hbuilt data x);
        [apply Hc | apply He | exact Hser | apply Hs].
    + reflexivity.
    + cbn [wire]. rewrite drop_app_length. apply not_quit_in.
      repeat constructor; discriminate.
Qed.

Lemma failure_after_connecting_skips_quit_witness :
  exists w',
    _send_email prod_service sample_library server_up "a@x.com
Bcc: b@x.com" "s" "t" None quiet =
      (Raise (Exception "header value appears to contain an embedded header"), w') /\
    wire w' = wire quiet ++
              [SMTP_connect (smtp_host prod_service) (smtp_port prod_service);
               SMTP_ehlo] /\
    SMTP_quit ∉ drop (length (wire quiet)) (wire w').
Proof.
  apply (proj1 (failure_after_connecting_skips_quit prod_service sample_library
                  server_up "a@x.com
Bcc: b@x.com" "s" "t" None quiet
                  (Exception "header value appears to contain an embedded header")
                  eq_refl eq_refl (fun _ => eq_refl) (fun _ => eq_refl))).
  reflexivity.
Defined.

(** X4: when the connection is refused, [_send_email] makes that one
    call and no other (no message is handed over), raises the same
    exception, and the failure is logged twice, once by
    [_create_connection] and once by [_send_email].  This is so for
    every text that UTF-8 can encode; for the others the connection is
    not even tried: the encoding error is raised first, with no call and
    nothing logged. *)
Theorem connection_failure_logged_twice svc lib tr to subject text html w x :
  log_only svc = false ->
  tr (wire w) (SMTP_connect (smtp_host svc) (smtp_port svc)) = Some x ->
  (refused_text text html = None ->
   exists w',
     _send_email svc lib tr to subject text html w = (Raise x, w') /\
     wire w' = wire w ++ [SMTP_connect (smtp_host svc) (smtp_port svc)] /\
     log w' = log w ++ [(ERROR, "[email] Erro ao conectar SMTP: " +:+ exn_msg x);
                        (ERROR, "[email] Erro ao enviar: " +:+ exn_msg x)]) /\
  (forall t, refused_text text html = Some t ->
     _send_email svc lib tr to subject text html w = (Raise (encode_error lib t), w)).
Proof.
  intros Hlog Hc. split.
  - intros Hbuilt. eexists. split; [| split].
    + apply send_connect_refused; [exact Hlog | exact Hbuilt | exact Hc].
    + reflexivity.
    + reflexivity.
  - intros t Hko. apply _send_email_refused. exact Hko.
Qed.

Lemma connection_failure_logged_twice_witness :
  exists w',
    _send_email prod_service sample_library server_down "a@x.com" "s" "t" None quiet =
      (Raise (Exception "[Errno 111] Connection refused"), w') /\
    wire w' = wire quiet ++
              [SMTP_connect (smtp_host prod_service) (smtp_port prod_service)] /\
    log w' = log quiet ++
             [(ERROR, "[email] Erro ao conectar SMTP: " +:+
                      exn_msg (Exception "[Errno 111] Connection refused"));
              (ERROR, "[email] Erro ao enviar: " +:+
                      exn_msg (Exception "[Errno 111] Connection refused"))].
Proof.
  refine (proj1 (connection_failure_logged_twice prod_service sample_library
                   server_down "a@x.com" "s" "t" None quiet
                   (Exception "[Errno 111] Connection refused") _ _) _).
  - reflexivity.
  - reflexivity.
  - reflexivity.
Defined.

(** ** Connections and the reachability probe *)

Lemma create_connection_result svc tr w :
  log_only svc = false ->
  (_create_connection svc tr w).1 = Ok (Some tt) \/
  exists x, (_create_connection svc tr w).1 = Raise x.
Proof.
  intros Hlog. unfold _create_connection. rewrite Hlog.
  unfold try_except, bind, smtp_do, logger, ret, raise. cbn [log wire].
  destruct (tr (wire w) _) as [x |]; cbn [log wire]; [right; exists x; reflexivity |].
  destruct (tr _ SMTP_ehlo) as [x |]; cbn [log wire];
    [right; exists x; reflexivity | left; reflexivity].
Qed.

(** X5: [_create_connection] returns no connection object ([None]) in
    log-only mode, without any call on the SMTP client; outside log-only
    mode it never returns [None]: it returns a connection or raises. *)
Theorem create_connection_none_only_in_log_only svc tr w :
  (log_only svc = true ->
   exists w', _create_connection svc tr w = (Ok None, w') /\ wire w' = wire w) /\
  (log_only svc = false -> (_create_connection svc tr w).1 <> Ok None).
Proof.
  split.
  - intros Hlog. unfold _create_connection. rewrite Hlog.
    eexists. split; reflexivity.
  - intros Hlog E.
    destruct (create_connection_result svc tr w Hlog) as [H | [x H]];
      rewrite H in E; discriminate E.
Qed.

Lemma create_connection_none_only_in_log_only_witness :
  (_create_connection prod_service server_down quiet).1 <> Ok None.
Proof.
  exact (proj2 (create_connection_none_only_in_log_only prod_service server_down quiet)
           eq_refl).
Defined.

Lemma verify_connection_cases svc tr w :
  exists b w' calls,
    verify_connection svc tr w = (Ok b, w') /\
    wire w' = wire w ++ calls /\
    calls `prefix_of` probe_calls svc /\
    (log_only svc = true -> b = true /\ calls = []) /\
    (log_only svc = false -> b = true -> calls = probe_calls svc) /\
    (b = false ->
     exists x call, last calls = Some call /\
                    tr (wire w ++ removelast calls) call = Some x).
Proof.
  unfold probe_calls.
  set (connect := SMTP_connect (smtp_host svc) (smtp_port svc)).
  destruct (log_only svc) eqn:Hlog.
  { exists true, {| log := log w ++ [(INFO, "[email] Modo LOG_ONLY ativo")];
                   wire := wire w |}, [].
    split; [unfold verify_connection; rewrite Hlog; reflexivity |].
    split; [cbn; symmetry; apply app_nil_r |].
    split; [apply prefix_nil |].
    split; [intros _; split; reflexivity |].
    split; [discriminate | discriminate]. }
  destruct (tr (wire w) connect) as [x |] eqn:H1.
  { eexists _, _, [connect].
    split; [apply (probe_connect_refused svc tr w Hlog x H1) |].
    split; [reflexivity |]. split; [eexists; reflexivity |].
    split; [discriminate |]. split; [discriminate |].
    intros _. exists x, connect. split; [reflexivity |].
    cbn [removelast]. rewrite app_nil_r. exact H1. }
  destruct (tr (wire w ++ [connect]) SMTP_ehlo) as [x |] eqn:H2.
  { eexists _, _, [connect; SMTP_ehlo].
    split; [apply (probe_ehlo_refused svc tr w Hlog x H1 H2) |].
    split; [reflexivity |]. split; [eexists; reflexivity |].
    split; [discriminate |]. split; [discriminate |].
    intros _. exists x, SMTP_ehlo. split; [reflexivity | exact H2]. }
  destruct (tr (wire w ++ [connect; SMTP_ehlo]) SMTP_quit) as [x |] eqn:H3.
  { eexists _, _, [connect; SMTP_ehlo; SMTP_quit].
    split; [apply (probe_quit_refused svc tr w Hlog x H1 H2 H3) |].
    split; [reflexivity |]. split; [eexists; symmetry; apply app_nil_r |].
    split; [discriminate |]. split; [discriminate |].
    intros _. exists x, SMTP_quit. split; [reflexivity | exact H3]. }
  eexists _, _, [connect; SMTP_ehlo; SMTP_quit].
  split; [apply (probe_accepted svc tr w Hlog H1 H2 H3) |].
  split; [reflexivity |]. split; [eexists; symmetry; apply app_nil_r |].
  split; [discriminate |]. split; [reflexivity | discriminate].
Qed.

(** X6: [verify_connection] never raises, whatever the mail server does:
    it returns a boolean.  It makes no call in log-only mode and answers
    [True]; otherwise it connects, greets and quits, answers [True] only
    when all three calls went through, and [False] only when the SMTP
    client raised on the last call made.  It never hands over a message. *)
Theorem verify_connection_never_raises svc tr w :
  exists b w' calls,
    verify_connection svc tr w = (Ok b, w') /\
    wire w' = wire w ++ calls /\
    calls `prefix_of` probe_calls svc /\
    (forall sender rcpt msg, SMTP_sendmail sender rcpt msg ∉ calls) /\
    (log_only svc = true -> b = true /\ calls = []) /\
    (log_only svc = false -> b = true -> calls = probe_calls svc) /\
    (b = false ->
     exists x call, last calls = Some call /\
                    tr (wire w ++ removelast calls) call = Some x).
Proof.
  destruct (verify_connection_cases svc tr w)
    as (b & w' & calls & Hrun & Hwire & Hpre & Hlo & Hok & Hko).
  exists b, w', calls. split; [exact Hrun |]. split; [exact Hwire |].
  split; [exact Hpre |]. split; [| split; [exact Hlo | split; [exact Hok | exact Hko]]].
  intros sender rcpt msg Hin.
  apply (elem_of_prefix _ _ _ Hin) in Hpre. unfold probe_calls in Hpre.
  repeat (apply elem_of_cons in Hpre as [Hpre | Hpre]; [discriminate Hpre |]).
  apply elem_of_nil in Hpre. exact Hpre.
Qed.

Lemma verify_connection_never_raises_witness :
  exists b w' (calls : list smtp_call),
    verify_connection dev_service server_down quiet = (Ok b, w') /\
    b = true /\ calls = [].
Proof.
  destruct (verify_connection_never_raises dev_service server_down quiet)
    as (b & w' & calls & Hrun & _ & _ & _ & Hlo & _).
  exists b, w', calls. split; [exact Hrun | exact (Hlo eq_refl)].
Defined.


(** X7: the health route always answers, with status ["ok"]; its
    [email_smtp] field is [True] in log-only mode and with a mail server
    that accepts every call, and [False] when the connection is refused. *)
Theorem health_always_answers svc tr w :
  (exists b w', health svc tr w =
                (Ok {| health_status := "ok"; email_smtp := b |}, w')) /\
  (log_only svc = true ->
   (health svc tr w).1 = Ok {| health_status := "ok"; email_smtp := true |}) /\
  (log_only svc = false -> (forall history call, tr history call = None) ->
   (health svc tr w).1 = Ok {| health_status := "ok"; email_smtp := true |}) /\
  (log_only svc = false ->
   (exists x, tr (wire w) (SMTP_connect (smtp_host svc) (smtp_port svc)) = Some x) ->
   (health svc tr w).1 = Ok {| health_status := "ok"; email_smtp := false |}).
Proof.
  unfold health, bind, ret. split; [| split; [| split]].
  - destruct (verify_connection_cases svc tr w) as (b & w' & calls & Hrun & _).
    exists b, w'. rewrite Hrun. reflexivity.
  - intros Hlog. unfold verify_connection. rewrite Hlog. reflexivity.
  - intros Hlog Hup. rewrite (probe_accepted svc tr w Hlog); [reflexivity | apply Hup ..].
  - intros Hlog [x Hx]. rewrite (probe_connect_refused svc tr w Hlog x Hx). reflexivity.
Qed.

Lemma health_always_answers_witness :
  (health prod_service server_down quiet).1 =
  Ok {| health_status := "ok"; email_smtp := false |}.
Proof.
  refine (proj2 (proj2 (proj2 (health_always_answers prod_service server_down quiet)))
            eq_refl _).
  exists (Exception "[Errno 111] Connection refused"). reflexivity.
Defined.

(** ** The issuing handlers *)

(** X8: for a request whose e-mail field is a string or absent,
    [register] answers 400 exactly when the field is absent or empty, and
    then nothing is stored, logged or sent; with an address present it
    answers 200 when the sender returns and the 500 delivery failure,
    carrying the text of the exception, when the sender raises. *)
Theorem register_answers svc lib tr r now data st w :
  let out := register svc lib tr r now data st w in
  (status out.1.1 = 400 <-> present (email data) = None) /\
  (status out.1.1 = 400 -> out.1.2 = st /\ out.2 = w) /\
  (forall e, present (email data) = Some e ->
     (forall b, (send_verification_email svc lib tr e (generate_code r) w).1 = Ok b ->
                out.1.1 = success "Código enviado para seu e-mail") /\
     (forall x, (send_verification_email svc lib tr e (generate_code r) w).1 = Raise x ->
                out.1.1 = DeliveryFailure x)).
Proof.
  unfold register. destruct (present (email data)) as [e |].
  - destruct (send_verification_email svc lib tr e (generate_code r) w)
      as [[b | x] w'] eqn:Hsend; cbn [fst snd status success DeliveryFailure server_error].
    + split; [split; discriminate |]. split; [discriminate |].
      intros e' [= <-]. rewrite Hsend. cbn [fst].
      split; [reflexivity | discriminate].
    + split; [split; discriminate |]. split; [discriminate |].
      intros e' [= <-]. rewrite Hsend. cbn [fst].
      split; [discriminate | intros x' [= <-]; reflexivity].
  - cbn [fst snd status bad_request].
    split; [split; reflexivity |]. split; [intros _; split; reflexivity |].
    discriminate.
Qed.

Lemma register_answers_witness :
  (register prod_service sample_library server_down 123456 0 (email_body "")
     after_register quiet).1.2 = after_register /\
  (register prod_service sample_library server_down 123456 0 (email_body "")
     after_register quiet).2 = quiet.
Proof.
  refine (proj1 (proj2 (register_answers prod_service sample_library server_down
                          123456 0 (email_body "") after_register quiet)) _).
  reflexivity.
Defined.

(** X9: in log-only mode an issuing request with a non-empty address
    always succeeds: [register] and [forgot_password] answer 200, store
    the code under the address and make no call on the SMTP client. *)
Theorem log_only_issuing_always_succeeds svc lib tr r now e st w :
  log_only svc = true -> e <> "" ->
  (exists w',
     register svc lib tr r now (email_body e) st w =
       (success "Código enviado para seu e-mail",
        {| verification_codes := issue e (generate_code r) now (verification_codes st);
           reset_codes := reset_codes st |}, w') /\
     wire w' = wire w) /\
  (exists w',
     forgot_password svc lib tr r now (email_body e) st w =
       (success "Código de recuperação enviado",
        {| verification_codes := verification_codes st;
           reset_codes := issue e (generate_code r) now (reset_codes st) |}, w') /\
     wire w' = wire w).
Proof.
  intros Hlog He.
  pose proof (generate_code_encodable r) as Hc. split.
  - unfold register. cbn [email email_body]. rewrite (present_nonempty e He).
    cbv zeta. unfold send_verification_email.
    rewrite (_send_email_log_only svc lib tr _ _ _ _ w Hlog
               (verification_mail_not_refused _ Hc)).
    eexists. split; reflexivity.
  - unfold forgot_password. cbn [email email_body]. rewrite (present_nonempty e He).
    cbv zeta. unfold send_password_reset_email.
    rewrite (_send_email_log_only svc lib tr _ _ _ _ w Hlog
               (password_reset_mail_not_refused _ Hc)).
    eexists. split; reflexivity.
Qed.

Lemma log_only_issuing_always_succeeds_witness :
  exists w',
    register dev_service sample_library server_down 123456 0 (email_body "a@x.com")
      initial_state quiet =
      (success "Código enviado para seu e-mail",
       {| verification_codes :=
            issue "a@x.com" (generate_code 123456) 0 (verification_codes initial_state);
          reset_codes := reset_codes initial_state |}, w') /\
    wire w' = wire quiet.
Proof.
  refine (proj1 (log_only_issuing_always_succeeds dev_service sample_library server_down
                   123456 0 "a@x.com" initial_state quiet eq_refl _)).
  discriminate.
Defined.



(** X11: an issuing request changes the entry of its own address and no
    other: every other address keeps its entry, or its absence, in the
    store of the flow. *)
Theorem issuing_touches_only_its_entry svc lib tr r now data st w k :
  present (email data) <> Some k ->
  verification_codes (register svc lib tr r now data st w).1.2 !! k =
    verification_codes st !! k /\
  reset_codes (forgot_password svc lib tr r now data st w).1.2 !! k =
    reset_codes st !! k.
Proof.
  intros Hk. rewrite register_state, forgot_password_state.
  destruct (present (email data)) as [e |]; [| split; reflexivity].
  assert (e <> k) by congruence.
  split; cbn; unfold issue; apply lookup_insert_ne; assumption.
Qed.

Lemma issuing_touches_only_its_entry_witness :
  verification_codes
    (register dev_service sample_library server_up 654321 5 (email_body "b@x.com")
       after_register quiet).1.2 !! "a@x.com" =
  verification_codes after_register !! "a@x.com".
Proof.
  refine (proj1 (issuing_touches_only_its_entry dev_service sample_library server_up 654321 5
                   (email_body "b@x.com") after_register quiet "a@x.com" _)).
  discriminate.
Defined.

(** ** The verification handlers *)

(** X12: for a request whose fields are strings or absent, [verify_code]
    answers 200 exactly when both fields are present, the store holds an
    entry for the address, the clock is not past its expiry and the
    candidate is the stored code. *)
Theorem verify_code_accepts_exactly_when now data st :
  (status (verify_code now data st).1 = 200 <->
   exists e stored,
     present (email data) = Some e /\
     present (code_field data) = Some (code stored) /\
     verification_codes st !! e = Some stored /\
     now <= expires_at stored).
Proof.
  unfold verify_code.
  destruct (present (email data)) as [e |];
    [| split; [discriminate |];
       intros (e' & stored & He & _); discriminate He].
  destruct (present (code_field data)) as [c |];
    [| split; [discriminate |];
       intros (e' & stored & _ & Hc & _); discriminate Hc].
  destruct (verification_codes st !! e) as [stored |] eqn:Hlook;
    [| split; [discriminate |];
       intros (e' & stored & [= <-] & _ & Hl & _); rewrite Hlook in Hl; discriminate Hl].
  destruct (Z.gtb_spec now (expires_at stored)) as [Hgt | Hle].
  { split; [discriminate |].
    intros (e' & stored' & [= <-] & _ & Hl & Hnow).
    rewrite Hlook in Hl. injection Hl as <-. lia. }
  destruct (String.eqb_spec (code stored) c) as [Heq | Hne]; cbn [negb].
  - split; [intros _ | reflexivity].
    exists e, stored. rewrite Heq. repeat split; [exact Hlook | lia].
  - split; [discriminate |].
    intros (e' & stored' & [= <-] & [= Hc] & Hl & _).
    rewrite Hlook in Hl. injection Hl as <-. congruence.
Qed.

Lemma verify_code_accepts_exactly_when_witness :
  status (verify_code 10 (code_body "a@x.com" "123456") after_register).1 = 200.
Proof.
  apply (proj2 (verify_code_accepts_exactly_when 10
                  (code_body "a@x.com" "123456") after_register)).
  exists "a@x.com", {| code := "123456"; expires_at := 900 |}.
  split; [reflexivity |]. split; [reflexivity |].
  split; [exact after_register_entry | cbn; lia].
Defined.


(** X13: [verify_code] never adds an entry and never changes one: every
    address keeps the entry it had, except that the entry of the
    requested address may be deleted, which happens only when that
    address and a candidate are present. *)
Theorem verify_code_touches_only_its_entry now data st k :
  verification_codes (verify_code now data st).2 !! k = verification_codes st !! k \/
  (verification_codes (verify_code now data st).2 !! k = None /\
   present (email data) = Some k /\
   is_Some (present (code_field data)) /\
   is_Some (verification_codes st !! k)).
Proof.
  unfold verify_code.
  destruct (present (email data)) as [e |]; [| left; reflexivity].
  destruct (present (code_field data)) as [c |]; [| left; reflexivity].
  destruct (verification_codes st !! e) as [stored |] eqn:Hlook; [| left; reflexivity].
  assert (Hdel : forall resp : response,
             verification_codes
               (resp, {| verification_codes := delete e (verification_codes st);
                         reset_codes := reset_codes st |}).2 !! k =
               verification_codes st !! k \/
             (verification_codes
                (resp, {| verification_codes := delete e (verification_codes st);
                          reset_codes := reset_codes st |}).2 !! k = None /\
              Some e = Some k /\ is_Some (Some c) /\
              is_Some (verification_codes st !! k))).
  { intros resp. cbn [snd verification_codes].
    destruct (decide (e = k)) as [<- | Hne].
    - right. rewrite lookup_delete_eq, Hlook. repeat split; eauto.
    - left. apply lookup_delete_ne. exact Hne. }
  destruct (now >? expires_at stored); [apply Hdel |].
  destruct (negb (code stored =? c)%string); [left; reflexivity | apply Hdel].
Qed.

Lemma verify_code_in_turn_cons now data rest st :
  verify_code_in_turn ((now, data) :: rest) st =
  ((verify_code now data st).1 ::
     (verify_code_in_turn rest (verify_code now data st).2).1,
   (verify_code_in_turn rest (verify_code now data st).2).2).
Proof.
  cbn [verify_code_in_turn].
  destruct (verify_code now data st) as [answer st1]. cbn [fst snd].
  destruct (verify_code_in_turn rest st1) as [answers st2]. reflexivity.
Qed.

(** X14: there is no lock-out.  In any state the server can be in, any
    number of wrong attempts on an unexpired entry are each answered with
    [CodeMismatch] and leave the state as it was, so the stored code is
    still accepted afterwards, up to its expiry. *)
Theorem wrong_attempts_never_lock_out st e stored attempts :
  reachable st ->
  verification_codes st !! e = Some stored ->
  Forall (wrong_attempt e stored) attempts ->
  verify_code_in_turn attempts st = (map (fun _ => CodeMismatch) attempts, st) /\
  forall now, now <= expires_at stored ->
    verify_code now (code_body e (code stored)) (verify_code_in_turn attempts st).2 =
    (success "Código verificado com sucesso",
     {| verification_codes := delete e (verification_codes st);
        reset_codes := reset_codes st |}).
Proof.
  intros Hreach Hlook Hall.
  destruct (stored_entry_fields st e stored Hreach Hlook) as [He Hs].
  assert (Hrun : verify_code_in_turn attempts st =
                 (map (fun _ => CodeMismatch) attempts, st)).
  { induction Hall as [| [now data] rest Hwrong _ IH]; [reflexivity |].
    destruct Hwrong as (Hnow & Hmail & c & Hcode & Hc & Hne). cbn [fst snd] in *.
    rewrite verify_code_in_turn_cons.
    rewrite (verify_code_mismatch now data st e c Hmail Hcode He Hc stored Hlook Hnow)
      by congruence.
    cbn [fst snd]. rewrite IH. reflexivity. }
  split; [exact Hrun |].
  intros now Hnow. rewrite Hrun. cbn [snd].
  apply (verify_code_accept now (code_body e (code stored)) st e (code stored)
           eq_refl eq_refl He Hs stored Hlook Hnow eq_refl).
Qed.

Lemma wrong_attempts_never_lock_out_witness :
  verify_code_in_turn
    [(1, code_body "a@x.com" "000000"); (2, code_body "a@x.com" "111111");
     (3, code_body "a@x.com" "654321")] after_register =
  ([CodeMismatch; CodeMismatch; CodeMismatch], after_register).
Proof.
  refine (proj1 (wrong_attempts_never_lock_out after_register "a@x.com"
                   {| code := "123456"; expires_at := 900 |}
                   [(1, code_body "a@x.com" "000000"); (2, code_body "a@x.com" "111111");
                    (3, code_body "a@x.com" "654321")]
                   reachable_after_register after_register_entry _)).
  repeat constructor; cbn; try lia;
    eexists; (split; [reflexivity | split; discriminate]).
Defined.

(** ** The password-reset flow *)

(** X15: [reset_password] applies its checks in this order: a missing or
    empty address, candidate or new password is answered first with 400
    and the state is kept; then no entry gives [CodeNotFound]; then a
    clock past the expiry gives [CodeExpired] and deletes the entry; then
    a candidate other than the stored code gives [CodeMismatch] and keeps
    the state; otherwise the entry is deleted and the answer is success. *)
Theorem reset_password_checks_in_order now data st :
  (present (email data) = None \/ present (code_field data) = None \/
   present (new_password data) = None ->
   reset_password now data st =
   (bad_request "Todos os campos são obrigatórios", st)) /\
  (forall e c pw,
     present (email data) = Some e -> present (code_field data) = Some c ->
     present (new_password data) = Some pw ->
     let consumed := {| verification_codes := verification_codes st;
                        reset_codes := delete e (reset_codes st) |} in
     (reset_codes st !! e = None ->
      reset_password now data st = (CodeNotFound, st)) /\
     (forall stored, reset_codes st !! e = Some stored ->
        (now > expires_at stored ->
         reset_password now data st = (CodeExpired, consumed)) /\
        (now <= expires_at stored -> code stored <> c ->
         reset_password now data st = (CodeMismatch, st)) /\
        (now <= expires_at stored -> code stored = c ->
         reset_password now data st =
         (success "Senha atualizada com sucesso", consumed)))).
Proof.
  unfold reset_password. split.
  - intros [H | [H | H]]; rewrite H.
    + reflexivity.
    + destruct (present (email data)); reflexivity.
    + destruct (present (email data)); [| reflexivity].
      destruct (present (code_field data)); reflexivity.
  - intros e c pw He Hc Hp. rewrite He, Hc, Hp. split.
    + intros ->. reflexivity.
    + intros stored ->. repeat split.
      * intros Hnow. destruct (Z.gtb_spec now (expires_at stored)); [reflexivity | lia].
      * intros Hnow Hne. destruct (Z.gtb_spec now (expires_at stored)); [lia |].
        destruct (String.eqb_spec (code stored) c); [contradiction | reflexivity].
      * intros Hnow Heq. destruct (Z.gtb_spec now (expires_at stored)); [lia |].
        destruct (String.eqb_spec (code stored) c); [reflexivity | contradiction].
Qed.

Lemma reset_password_checks_in_order_witness :
  reset_password 0 (code_body "a@x.com" "123456") after_both_flows =
  (bad_request "Todos os campos são obrigatórios", after_both_flows).
Proof.
  refine (proj1 (reset_password_checks_in_order 0 (code_body "a@x.com" "123456")
                   after_both_flows) _).
  right. right. reflexivity.
Defined.

(** X16: a code issued by [forgot_password] for a non-empty address is
    accepted by [reset_password] once, at any instant up to 900 seconds
    after the issue and with any non-empty new password; the entry is
    then gone, the rest of the state is as [forgot_password] left it, and
    the same request is answered with [CodeNotFound] from then on. *)
Theorem forgot_then_reset_round_trip svc lib tr r t e st w now pw :
  e <> "" -> draw_ok r -> pw <> "" -> now <= t + 900 ->
  let st1 := (forgot_password svc lib tr r t (email_body e) st w).1.2 in
  let st2 := {| verification_codes := verification_codes st;
                reset_codes := delete e (reset_codes st) |} in
  reset_password now (reset_body e (generate_code r) pw) st1 =
    (success "Senha atualizada com sucesso", st2) /\
  forall now', reset_password now' (reset_body e (generate_code r) pw) st2 =
               (CodeNotFound, st2).
Proof.
  intros He Hr Hp Hnow st1 st2.
  pose proof (generate_code_nonempty r Hr) as Hc.
  assert (E1 : st1 = {| verification_codes := verification_codes st;
                        reset_codes := issue e (generate_code r) t (reset_codes st) |})
    by (apply forgot_password_issues; exact He).
  split.
  - rewrite (reset_password_present now (reset_body e (generate_code r) pw) st1 e (generate_code r) pw
               eq_refl eq_refl eq_refl He Hc Hp).
    rewrite E1. cbn [reset_codes verification_codes]. rewrite issue_lookup.
    cbn [expires_at code].
    destruct (Z.gtb_spec now (t + 900)); [lia |].
    rewrite String.eqb_refl. cbn [negb]. unfold st2, issue.
    rewrite delete_insert_eq. reflexivity.
  - intros now'.
    rewrite (reset_password_present now' (reset_body e (generate_code r) pw) st2 e (generate_code r) pw
               eq_refl eq_refl eq_refl He Hc Hp).
    unfold st2. cbn [reset_codes]. rewrite lookup_delete_eq. reflexivity.
Qed.

Lemma forgot_then_reset_round_trip_witness :
  reset_password 901 (reset_body "a@x.com" (generate_code 123456) "novaSenha123")
    (forgot_password dev_service sample_library server_up 123456 1 (email_body "a@x.com")
       after_register quiet).1.2 =
  (success "Senha atualizada com sucesso",
   {| verification_codes := verification_codes after_register;
      reset_codes := delete "a@x.com" (reset_codes after_register) |}).
Proof.
  refine (proj1 (forgot_then_reset_round_trip dev_service sample_library server_up 123456 1
                   "a@x.com" after_register quiet 901 "novaSenha123" _ draw_123456 _ _)).
  - discriminate.
  - discriminate.
  - lia.
Defined.

(** ** Invariants of the stores *)

(** X17: in every state the server can be in, every entry of either store
    sits under a non-empty address and holds a string of exactly six
    decimal digits that reads as a number between 100000 and 999999. *)
Theorem stored_codes_are_six_digits st :
  reachable st ->
  forall e p,
    verification_codes st !! e = Some p \/ reset_codes st !! e = Some p ->
    e <> "" /\
    String.length (code p) = 6%nat /\
    all_digits (code p) = true /\
    exists r, draw_ok r /\ decimal_value (code p) = Some r.
Proof.
  intros Hreach e p Hlook.
  destruct (reachable_ok st Hreach) as [Hv Hr].
  assert (Hok : e <> "" /\ exists r, draw_ok r /\ code p = generate_code r)
    by (destruct Hlook as [H | H]; [apply (Hv e p H) | apply (Hr e p H)]).
  destruct Hok as (He & r & Hd & ->).
  rewrite (generate_code_six r Hd).
  split; [exact He |]. split; [reflexivity |].
  split; [apply six_digits_all_digits |].
  exists r. split; [exact Hd | apply six_digits_value, Hd].
Qed.

Lemma stored_codes_are_six_digits_witness :
  "a@x.com" <> "" /\
  String.length (code {| code := "123456"; expires_at := 900 |}) = 6%nat /\
  all_digits (code {| code := "123456"; expires_at := 900 |}) = true /\
  exists r, draw_ok r /\
            decimal_value (code {| code := "123456"; expires_at := 900 |}) = Some r.
Proof.
  exact (stored_codes_are_six_digits after_register reachable_after_register
           "a@x.com" {| code := "123456"; expires_at := 900 |}
           (or_introl after_register_entry)).
Defined.

(** X18: different draws give different codes: on the range of the draw
    [generate_code] is one-to-one, so there are as many codes as
    numbers from 100000 to 999999. *)
Theorem generate_code_injective r1 r2 :
  draw_ok r1 -> draw_ok r2 ->
  (generate_code r1 = generate_code r2 <-> r1 = r2).
Proof.
  intros H1 H2. split; [apply generate_code_inj; assumption | intros ->; reflexivity].
Qed.

Lemma generate_code_injective_witness :
  generate_code 100000 = generate_code 999999 <-> 100000 = 999999.
Proof.
  apply generate_code_injective; unfold draw_ok; lia.
Defined.

(** ** The FastAPI variant *)

Lemma fastapi_verify_cases e c (codes : gmap string string) :
  (codes !! e = Some c ->
   FastAPI.verify e c codes = (FastAPI.Returned "Verificado", delete e codes)) /\
  (codes !! e <> Some c ->
   FastAPI.verify e c codes = (FastAPI.HTTPException 400 "Código inválido", codes)).
Proof.
  unfold FastAPI.verify, FastAPI.get_differs, FastAPI.del. split.
  - intros ->. rewrite String.eqb_refl. reflexivity.
  - intros Hne. destruct (codes !! e) as [stored |]; [| reflexivity].
    destruct (String.eqb_spec stored c) as [-> | _]; [contradiction | reflexivity].
Qed.

(** X19: the FastAPI [verify] accepts exactly when the dictionary holds
    the candidate under the address, and then deletes the entry;
    otherwise, also when the address has no entry at all, it answers 400
    and keeps the dictionary.  Its [del] never meets a missing key: no
    [KeyError] escapes. *)
Theorem fastapi_verify_never_key_error e c (codes : gmap string string) :
  (codes !! e = Some c ->
   FastAPI.verify e c codes = (FastAPI.Returned "Verificado", delete e codes)) /\
  (codes !! e <> Some c ->
   FastAPI.verify e c codes = (FastAPI.HTTPException 400 "Código inválido", codes)) /\
  (forall k, (FastAPI.verify e c codes).1 <> FastAPI.KeyError k).
Proof.
  destruct (fastapi_verify_cases e c codes) as [Hyes Hno].
  split; [exact Hyes | split; [exact Hno |]].
  intros k. destruct (decide (codes !! e = Some c)) as [H | H].
  - rewrite (Hyes H). discriminate.
  - rewrite (Hno H). discriminate.
Qed.

Lemma fastapi_verify_never_key_error_witness :
  FastAPI.verify "a@x.com" "123456" ∅ =
  (FastAPI.HTTPException 400 "Código inválido", ∅).
Proof.
  refine (proj1 (proj2 (fastapi_verify_never_key_error "a@x.com" "123456" ∅)) _).
  rewrite lookup_empty. discriminate.
Defined.

Lemma fastapi_register_codes svc lib tr r e codes w :
  (FastAPI.register svc lib tr r e codes w).1.2 = <[e := str r]> codes.
Proof.
  unfold FastAPI.register.
  destruct (send_verification_email svc lib tr e (str r) w) as [[b | x] w']; reflexivity.
Qed.

Lemma fastapi_forgot_password_codes svc lib tr r e codes w :
  (FastAPI.forgot_password svc lib tr r e codes w).1.2 = <[e := str r]> codes.
Proof.
  unfold FastAPI.forgot_password.
  destruct (send_password_reset_email svc lib tr e (str r) w) as [[b | x] w']; reflexivity.
Qed.

(** X20: in the FastAPI variant the two flows share one dictionary: a code
    issued by [forgot_password] is accepted by [verify], and it replaces
    the code [register] had issued for the same address, which is
    refused from then on unless the two draws gave the same string. *)
Theorem fastapi_flows_share_codes svc lib tr r1 r2 e codes w1 w2 :
  let codes1 := (FastAPI.register svc lib tr r1 e codes w1).1.2 in
  let codes2 := (FastAPI.forgot_password svc lib tr r2 e codes1 w2).1.2 in
  FastAPI.verify e (str r2) codes2 =
    (FastAPI.Returned "Verificado", delete e codes) /\
  (str r1 <> str r2 ->
   FastAPI.verify e (str r1) codes2 =
     (FastAPI.HTTPException 400 "Código inválido", codes2)).
Proof.
  intros codes1 codes2.
  assert (E : codes2 = <[e := str r2]> codes).
  { unfold codes2, codes1.
    rewrite fastapi_forgot_password_codes, fastapi_register_codes.
    apply insert_insert_eq. }
  rewrite E. split.
  - rewrite (proj1 (fastapi_verify_cases e (str r2) (<[e := str r2]> codes)))
      by apply lookup_insert_eq.
    rewrite delete_insert_eq. reflexivity.
  - intros Hne. apply (fastapi_verify_cases e (str r1) (<[e := str r2]> codes)).
    rewrite lookup_insert_eq. congruence.
Qed.

Lemma fastapi_flows_share_codes_witness :
  FastAPI.verify "a@x.com" (str 123456)
    (FastAPI.forgot_password dev_service sample_library server_up 654321 "a@x.com"
       (FastAPI.register dev_service sample_library server_up 123456 "a@x.com" ∅ quiet).1.2
       quiet).1.2 =
  (FastAPI.HTTPException 400 "Código inválido",
   (FastAPI.forgot_password dev_service sample_library server_up 654321 "a@x.com"
      (FastAPI.register dev_service sample_library server_up 123456 "a@x.com" ∅ quiet).1.2
      quiet).1.2).
Proof.
  refine (proj2 (fastapi_flows_share_codes dev_service sample_library server_up 123456 654321
                   "a@x.com" ∅ quiet quiet) _).
  discriminate.
Defined.

(** X21: the FastAPI [register] stores the code before it sends,
    whatever the outcome of the delivery: when the sender raises it
    answers 500 with the text of the exception, otherwise it returns
    normally, and in either case the code is accepted by [verify] once,
    however much later, and refused after that. *)
Theorem fastapi_register_round_trip svc lib tr r e codes w :
  let out := FastAPI.register svc lib tr r e codes w in
  (forall x, (send_verification_email svc lib tr e (str r) w).1 = Raise x ->
             out.1.1 = FastAPI.HTTPException 500 (exn_msg x)) /\
  (forall b, (send_verification_email svc lib tr e (str r) w).1 = Ok b ->
             out.1.1 = FastAPI.Returned "Código enviado") /\
  FastAPI.verify e (str r) out.1.2 =
    (FastAPI.Returned "Verificado", delete e codes) /\
  FastAPI.verify e (str r) (delete e codes) =
    (FastAPI.HTTPException 400 "Código inválido", delete e codes).
Proof.
  intros out.
  assert (E : out.1.2 = <[e := str r]> codes) by apply fastapi_register_codes.
  split; [| split; [| split]].
  - intros x. unfold out, FastAPI.register.
    destruct (send_verification_email svc lib tr e (str r) w) as [[b | x'] w'];
      cbn [fst snd]; [discriminate | intros [= ->]; reflexivity].
  - intros b. unfold out, FastAPI.register.
    destruct (send_verification_email svc lib tr e (str r) w) as [[b' | x'] w'];
      cbn [fst snd]; [reflexivity | discriminate].
  - rewrite E.
    rewrite (proj1 (fastapi_verify_cases e (str r) (<[e := str r]> codes)))
      by apply lookup_insert_eq.
    rewrite delete_insert_eq. reflexivity.
  - apply (fastapi_verify_cases e (str r) (delete e codes)).
    rewrite lookup_delete_eq. discriminate.
Qed.

Lemma fastapi_register_round_trip_witness :
  (FastAPI.register prod_service sample_library server_down 123456 "a@x.com" ∅ quiet).1.1 =
  FastAPI.HTTPException 500 (exn_msg (Exception "[Errno 111] Connection refused")).
Proof.
  refine (proj1 (fastapi_register_round_trip prod_service sample_library server_down 123456
                   "a@x.com" ∅ quiet) (Exception "[Errno 111] Connection refused") _).
  reflexivity.
Defined.

(** ** More on the Flask handlers *)

(** X22: for a request whose fields are strings or absent,
    [reset_password] answers 200 exactly when the three fields are
    present, the reset store holds an entry for the address, the clock is
    not past its expiry and the candidate is the stored code. *)
Theorem reset_password_accepts_exactly_when now data st :
  (status (reset_password now data st).1 = 200 <->
   exists e stored,
     present (email data) = Some e /\
     present (code_field data) = Some (code stored) /\
     is_Some (present (new_password data)) /\
     reset_codes st !! e = Some stored /\
     now <= expires_at stored).
Proof.
  unfold reset_password.
  destruct (present (email data)) as [e |];
    [| split; [discriminate |];
       intros (e' & stored & He & _); discriminate He].
  destruct (present (code_field data)) as [c |];
    [| split; [discriminate |];
       intros (e' & stored & _ & Hc & _); discriminate Hc].
  destruct (present (new_password data)) as [pw |];
    [| split; [discriminate |];
       intros (e' & stored & _ & _ & [pw Hp] & _); discriminate Hp].
  destruct (reset_codes st !! e) as [stored |] eqn:Hlook;
    [| split; [discriminate |];
       intros (e' & stored & [= <-] & _ & _ & Hl & _); rewrite Hlook in Hl;
       discriminate Hl].
  destruct (Z.gtb_spec now (expires_at stored)) as [Hgt | Hle].
  { split; [discriminate |].
    intros (e' & stored' & [= <-] & _ & _ & Hl & Hnow).
    rewrite Hlook in Hl. injection Hl as <-. lia. }
  destruct (String.eqb_spec (code stored) c) as [Heq | Hne]; cbn [negb].
  - split; [intros _ | reflexivity].
    exists e, stored. rewrite Heq. repeat split; [eauto | exact Hlook | lia].
  - split; [discriminate |].
    intros (e' & stored' & [= <-] & [= Hc] & _ & Hl & _).
    rewrite Hlook in Hl. injection Hl as <-. congruence.
Qed.

Lemma reset_password_accepts_exactly_when_witness :
  status (reset_password 10 (reset_body "a@x.com" "123456" "novaSenha123")
            after_both_flows).1 = 200.
Proof.
  apply (proj2 (reset_password_accepts_exactly_when 10
                  (reset_body "a@x.com" "123456" "novaSenha123")
                  after_both_flows)).
  exists "a@x.com", {| code := "123456"; expires_at := 901 |}.
  split; [reflexivity |]. split; [reflexivity |].
  split; [eexists; reflexivity |].
  split; [vm_compute; reflexivity | cbn; lia].
Defined.

(** X23: an expired code is reported as expired once.  In any state the
    server can be in, the first verification made after the expiry, with
    any non-empty candidate, is answered with [CodeExpired]; every later
    one for the same address is answered with [CodeNotFound], until a new
    code is issued. *)
Theorem expired_code_reported_once st e stored now c :
  reachable st ->
  verification_codes st !! e = Some stored ->
  c <> "" -> now > expires_at stored ->
  (verify_code now (code_body e c) st).1 = CodeExpired /\
  forall now' c', c' <> "" ->
    verify_code now' (code_body e c') (verify_code now (code_body e c) st).2 =
    (CodeNotFound, (verify_code now (code_body e c) st).2).
Proof.
  intros Hreach Hlook Hc Hnow.
  destruct (stored_entry_fields st e stored Hreach Hlook) as [He _].
  rewrite (verify_code_expired now (code_body e c) st e c eq_refl eq_refl He Hc
             stored Hlook Hnow).
  split; [reflexivity |].
  intros now' c' Hc'. cbn [snd].
  apply (verify_code_not_found now' (code_body e c') _ e c' eq_refl eq_refl He Hc').
  apply lookup_delete_eq.
Qed.

Lemma expired_code_reported_once_witness :
  (verify_code 901 (code_body "a@x.com" "123456") after_register).1 = CodeExpired.
Proof.
  refine (proj1 (expired_code_reported_once after_register "a@x.com"
                   {| code := "123456"; expires_at := 900 |} 901 "123456"
                   reachable_after_register after_register_entry _ _)).
  - discriminate.
  - cbn. lia.
Defined.

(** X24: in log-only mode the code leaves no trace outside the store:
    the answer of [register] and of [forgot_password], what they log and
    the calls they make are the same whatever the draw. *)
Theorem log_only_hides_the_code svc lib tr r1 r2 now data st w :
  log_only svc = true ->
  (register svc lib tr r1 now data st w).1.1 = (register svc lib tr r2 now data st w).1.1 /\
  (register svc lib tr r1 now data st w).2 = (register svc lib tr r2 now data st w).2 /\
  (forgot_password svc lib tr r1 now data st w).1.1 =
    (forgot_password svc lib tr r2 now data st w).1.1 /\
  (forgot_password svc lib tr r1 now data st w).2 =
    (forgot_password svc lib tr r2 now data st w).2.
Proof.
  intros Hlog. unfold register, forgot_password.
  destruct (present (email data)) as [e |]; [| repeat split].
  cbv zeta. unfold send_verification_email, send_password_reset_email.
  rewrite !(_send_email_log_only svc lib tr _ _ _ _ w Hlog
              (verification_mail_not_refused _ (generate_code_encodable _))).
  rewrite !(_send_email_log_only svc lib tr _ _ _ _ w Hlog
              (password_reset_mail_not_refused _ (generate_code_encodable _))).
  repeat split.
Qed.

Lemma log_only_hides_the_code_witness :
  (register dev_service sample_library server_up 123456 0 (email_body "a@x.com") initial_state quiet).2 =
  (register dev_service sample_library server_up 654321 0 (email_body "a@x.com") initial_state quiet).2.
Proof.
  exact (proj1 (proj2 (log_only_hides_the_code dev_service sample_library server_up 123456 654321 0
                         (email_body "a@x.com") initial_state quiet eq_refl))).
Defined.
